(** * simulator/parse_results.py: the result-file checker

    A shallow embedding of the script [simulator/parse_results.py] and the
    properties its specification states about it.

    The script opens ["output.csv"], skips the header line, and for every
    further line splits it on commas, reads the policy (field 0), the hit
    count (field 2) and the per-batch hit counts (last field, sliced with
    [[1:-2]] and split on single spaces), asserts that the hit count is the
    sum of the per-batch counts and prints a summary line.

    Modelling choices.
    - A Python [str] is a [string]; a character is an [ascii], read as a code
      point below 256.  Code points above 255 are outside the model.
    - A Python [int] is a [Z].  CPython limits the number of digits of a
      decimal text that [int] converts and that [str] writes; the limit is
      modelled in [int] at its default of 4300 digits (CPython 3.11 and
      later, and the security releases of 3.7 to 3.10).  [str] is kept
      total: the script only formats integers that [int] has returned, and
      these are within the limit (see [parsed_integers_print]).
    - Exceptions are the constructors of [exn]; a computation that may raise
      returns a [result].  Code that also prints runs in [IO], which threads
      the [world] (the files and what was written to standard output) and
      keeps the world reached when an exception is raised, since what was
      printed before an uncaught exception stays printed.
    - Assertions are enabled (the interpreter is not run with [-O]).
    - The [with] block closes the file when the block is left, normally or
      by an exception; nothing the model observes depends on it. *)

From Stdlib Require Import String Ascii List ZArith Lia Bool.
From Stdlib Require Import DecimalString.
From Stdlib Require Decimal DecimalPos.
Import ListNotations.

Local Open Scope string_scope.
Local Open Scope Z_scope.

(** ** Exceptions and results *)

Inductive exn : Type :=
| FileNotFoundError
| PermissionError
| StopIteration
| IndexError
| ValueError
| AssertionError.

Inductive result (A : Type) : Type :=
| Ok (a : A)
| Raise (e : exn).

Arguments Ok {A} a.
Arguments Raise {A} e.

Module ResultMonad.

Definition bind {A B : Type} (m : result A) (k : A -> result B) : result B :=
  match m with
  | Ok a => k a
  | Raise e => Raise e
  end.

(** [list(map(f, xs))] for an [f] that may raise: elements are converted
    from left to right and the first exception escapes. *)
Fixpoint list_map {A B : Type} (f : A -> result B) (xs : list A)
  : result (list B) :=
  match xs with
  | [] => Ok []
  | x :: xs' =>
      bind (f x) (fun y => bind (list_map f xs') (fun ys => Ok (y :: ys)))
  end.

End ResultMonad.

Declare Scope result_scope.
Delimit Scope result_scope with result.
Notation "x <- m ;; k" := (ResultMonad.bind m (fun x => k))
  (at level 61, m at next level, right associativity) : result_scope.
Notation "' pat <- m ;; k" := (ResultMonad.bind m (fun x => match x with pat => k end))
  (at level 61, pat pattern, m at next level, right associativity) : result_scope.

(** ** Characters *)

Definition LF : ascii := "010"%char.
Definition CR : ascii := "013"%char.
Definition comma : ascii := ","%char.
Definition space : ascii := " "%char.
Definition underscore : ascii := "_"%char.

Definition ord (c : ascii) : Z := Z.of_N (N_of_ascii c).

(** ** The string operations the script uses *)

Module Str.

Definition len (s : string) : Z := Z.of_nat (String.length s).

(** [s.split(sep)] for a one-character separator: always at least one
    piece, empty pieces are kept. *)
Fixpoint split (sep : ascii) (s : string) : list string :=
  match s with
  | EmptyString => [EmptyString]
  | String c s' =>
      if Ascii.eqb c sep then EmptyString :: split sep s'
      else match split sep s' with
           | [] => [String c EmptyString]
           | piece :: pieces => String c piece :: pieces
           end
  end.

(** Where a slice bound [i] lands in a sequence of length [n]: a negative
    bound counts from the end, and bounds are clipped to [0..n]. *)
Definition slice_bound (n i : Z) : Z :=
  if i <? 0 then Z.max 0 (i + n) else Z.min i n.

(** [s[start:stop]]. *)
Definition slice (s : string) (start stop : Z) : string :=
  let n := len s in
  let lo := slice_bound n start in
  let hi := slice_bound n stop in
  String.substring (Z.to_nat lo) (Z.to_nat (hi - lo)) s.

(** [sep.join(pieces)]. *)
Definition join (sep : string) (pieces : list string) : string :=
  String.concat sep pieces.

End Str.

(** ** Lists: indexing and [sum] *)

Module Seq.

(** [xs[i]]: a negative index counts from the end; out of range raises
    [IndexError]. *)
Definition getitem {A : Type} (xs : list A) (i : Z) : result A :=
  let n := Z.of_nat (List.length xs) in
  let j := if i <? 0 then i + n else i in
  if (j <? 0) || (n <=? j) then Raise IndexError
  else match nth_error xs (Z.to_nat j) with
       | Some x => Ok x
       | None => Raise IndexError
       end.

(** [sum(xs)]: left to right, from 0. *)
Definition sum (xs : list Z) : Z := fold_left Z.add xs 0.

End Seq.

(** ** Integers: [int(str)], [str(int)] and the [repr] of a list *)

Module PyInt.

(** The whitespace [int] skips on both sides of the literal. *)
Definition is_space (c : ascii) : bool :=
  let n := ord c in
  ((9 <=? n) && (n <=? 13)) || (n =? 32) || (n =? 133) || (n =? 160).

Definition digit_of (c : ascii) : option Z :=
  let n := ord c in
  if (48 <=? n) && (n <=? 57) then Some (n - 48) else None.

Fixpoint lstrip (s : string) : string :=
  match s with
  | EmptyString => EmptyString
  | String c s' => if is_space c then lstrip s' else s
  end.

Fixpoint rstrip (s : string) : string :=
  match s with
  | EmptyString => EmptyString
  | String c s' =>
      match rstrip s' with
      | EmptyString => if is_space c then EmptyString else String c EmptyString
      | r => String c r
      end
  end.

(** Decimal digits with single underscores between digits.  [acc] is the
    value read so far; [after_digit] tells whether the previous character
    was a digit (an underscore may follow, the literal may end). *)
Fixpoint digits (acc : Z) (after_digit : bool) (s : string) : option Z :=
  match s with
  | EmptyString => if after_digit then Some acc else None
  | String c s' =>
      if Ascii.eqb c underscore then
        if after_digit then digits acc false s' else None
      else match digit_of c with
           | Some d => digits (10 * acc + d) true s'
           | None => None
           end
  end.

(** An optional sign, then the digits. *)
Definition literal (s : string) : option Z :=
  match s with
  | EmptyString => None
  | String c s' =>
      if Ascii.eqb c "-" then option_map Z.opp (digits 0 false s')
      else if Ascii.eqb c "+" then digits 0 false s'
      else digits 0 false s
  end.

(** The number of decimal digits in a text; a sign, underscores and blanks
    do not count, leading zeros do. *)
Fixpoint digit_count (s : string) : Z :=
  match s with
  | EmptyString => 0
  | String c s' =>
      match digit_of c with
      | Some _ => 1 + digit_count s'
      | None => digit_count s'
      end
  end.

(** The interpreter's limit on the digits of a decimal text that [int]
    converts, at its default. *)
Definition max_str_digits : Z := 4300.

(** [int(s)]: blanks are skipped on both sides, the rest must be a literal,
    and a literal with more digits than the limit is refused like a text
    that is no literal. *)
Definition int (s : string) : result Z :=
  let text := rstrip (lstrip s) in
  match literal text with
  | Some z =>
      if digit_count text <=? max_str_digits then Ok z else Raise ValueError
  | None => Raise ValueError
  end.

(** [str(z)]. *)
Definition str (z : Z) : string := NilZero.string_of_int (Z.to_int z).

(** [repr(zs)], which is what an f-string writes for a list. *)
Definition repr_list (zs : list Z) : string :=
  "[" ++ Str.join ", " (map str zs) ++ "]".

End PyInt.

(** ** Files, standard output and the [IO] monad *)

(** What [open] finds at a path: nothing, a file it may not read, or a
    text file with its content as written on disk. *)
Inductive file : Type :=
| Missing
| Unreadable
| Text (content : string).

(** The world the script runs in: the state of each path, and the texts
    written to standard output so far, one per [print], oldest first. *)
Record world : Type := mkWorld {
  files : string -> file;
  stdout : list string
}.

Definition IO (A : Type) : Type := world -> result A * world.

Module IOMonad.

Definition ret {A : Type} (a : A) : IO A := fun w => (Ok a, w).

Definition raise {A : Type} (e : exn) : IO A := fun w => (Raise e, w).

Definition bind {A B : Type} (m : IO A) (k : A -> IO B) : IO B :=
  fun w =>
    match m w with
    | (Ok a, w') => k a w'
    | (Raise e, w') => (Raise e, w')
    end.

Definition lift {A : Type} (r : result A) : IO A := fun w => (r, w).

End IOMonad.

Declare Scope io_scope.
Delimit Scope io_scope with io.
Notation "x <- m ;; k" := (IOMonad.bind m (fun x => k))
  (at level 61, m at next level, right associativity) : io_scope.
Notation "' pat <- m ;; k" := (IOMonad.bind m (fun x => match x with pat => k end))
  (at level 61, pat pattern, m at next level, right associativity) : io_scope.
Notation "m ;; k" := (IOMonad.bind m (fun _ => k))
  (at level 61, right associativity) : io_scope.

Module TextFile.

(** Text mode with the default [newline=None]: every ["\r\n"] and every
    lone ["\r"] is read as ["\n"]. *)
Fixpoint universal_newlines (s : string) : string :=
  match s with
  | EmptyString => EmptyString
  | String c s' =>
      if Ascii.eqb c CR then
        match s' with
        | String c' s'' =>
            if Ascii.eqb c' LF then String LF (universal_newlines s'')
            else String LF (universal_newlines s')
        | EmptyString => String LF EmptyString
        end
      else String c (universal_newlines s')
  end.

(** The lines of a text, each with its ["\n"]; a last line without one is
    a line too, unless it is empty. *)
Fixpoint lines (s : string) : list string :=
  match s with
  | EmptyString => []
  | String c s' =>
      if Ascii.eqb c LF then String c EmptyString :: lines s'
      else match lines s' with
           | [] => [String c EmptyString]
           | l :: ls => String c l :: ls
           end
  end.

(** An open file is the list of the lines not read yet. *)
Definition handle : Type := list string.

(** [open(path, 'r')]. *)
Definition open (path : string) : IO handle :=
  fun w =>
    match files w path with
    | Missing => IOMonad.raise FileNotFoundError w
    | Unreadable => IOMonad.raise PermissionError w
    | Text content => IOMonad.ret (lines (universal_newlines content)) w
    end.

(** [next(f)]: the next line and the file advanced past it. *)
Definition next (f : handle) : result (string * handle) :=
  match f with
  | [] => Raise StopIteration
  | l :: f' => Ok (l, f')
  end.

End TextFile.

(** [print(s)]: [s] and a newline are written to standard output. *)
Definition print (s : string) : IO unit :=
  fun w => (Ok tt, mkWorld (files w) (stdout w ++ [s ++ String LF EmptyString])).

(** [assert(b)]. *)
Definition assert (b : bool) : result unit :=
  if b then Ok tt else Raise AssertionError.

(** ** The script *)

Definition output_file : string := "output.csv".

(** A record as the loop body holds it in [policy], [hits], [batchHits]. *)
Definition record : Type := (string * Z * list Z)%type.

(** The right-hand sides of the three assignments of the loop body, on the
    line already split into its fields. *)
Definition policy_of (line : list string) : result string :=
  Seq.getitem line 0.

Definition hits_of (line : list string) : result Z :=
  (field <- Seq.getitem line 2 ;;
   PyInt.int field)%result.

Definition batchHits_of (line : list string) : result (list Z) :=
  (last <- Seq.getitem line (-1) ;;
   ResultMonad.list_map PyInt.int (Str.split space (Str.slice last 1 (-2))))%result.

(** The first four statements of the loop body. *)
Definition parse_line (line : string) : result record :=
  (let line := Str.split comma line in
   policy <- policy_of line ;;
   hits <- hits_of line ;;
   batchHits <- batchHits_of line ;;
   Ok (policy, hits, batchHits))%result.

(** [f'{policy}, {hits} = sum({batchHits})']. *)
Definition summary (policy : string) (hits : Z) (batchHits : list Z) : string :=
  policy ++ ", " ++ PyInt.str hits ++ " = sum(" ++ PyInt.repr_list batchHits ++ ")".

(** The loop body. *)
Definition loop_body (line : string) : IO unit :=
  ('(policy, hits, batchHits) <- IOMonad.lift (parse_line line) ;;
   IOMonad.lift (assert (hits =? Seq.sum batchHits)) ;;
   print (summary policy hits batchHits))%io.

(** [for line in f: ...]. *)
Fixpoint for_lines (f : TextFile.handle) : IO unit :=
  match f with
  | [] => IOMonad.ret tt
  | line :: f' => (loop_body line ;; for_lines f')%io
  end.

(** The script, run as [__main__]. *)
Definition main : IO unit :=
  (f <- TextFile.open output_file ;;
   '(_, f) <- IOMonad.lift (TextFile.next f) ;;
   for_lines f)%io.

(** ** Running the script on a given file

    [run content] is the outcome and the standard output of the script when
    ["output.csv"] holds [content] and nothing was printed before. *)

Definition world_of (f : file) : world :=
  mkWorld (fun path => if String.eqb path output_file then f else Missing) [].

Definition run (content : string) : result unit * list string :=
  let (r, w) := main (world_of (Text content)) in (r, stdout w).

Definition nl : string := String LF EmptyString.

(** ** Derived notions used in the statements *)

(** What the loop body prints for a line, or the exception it raises. *)
Definition line_result (line : string) : result string :=
  ('(policy, hits, batchHits) <- parse_line line ;;
   _ <- assert (hits =? Seq.sum batchHits) ;;
   Ok (summary policy hits batchHits))%result.

(** What the loop does on the lines it is given: the outcome and what it
    writes. *)
Fixpoint scan (f : list string) : result unit * list string :=
  match f with
  | [] => (Ok tt, [])
  | line :: f' =>
      match line_result line with
      | Ok s => let (r, out) := scan f' in (r, (s ++ nl) :: out)
      | Raise e => (Raise e, [])
      end
  end.

(** What a line contributes to standard output once it has passed. *)
Definition printed (line : string) : string :=
  match line_result line with
  | Ok s => s ++ nl
  | Raise _ => EmptyString
  end.

(** The world after [out] has been written. *)
Definition emit (out : list string) (w : world) : world :=
  mkWorld (files w) (stdout w ++ out).

(** The lines the script reads from a file with the given content. *)
Definition file_lines (content : string) : list string :=
  TextFile.lines (TextFile.universal_newlines content).

(** A line holds a valid record: it parses and its hits are the sum of its
    batch hits. *)
Definition valid_line (line : string) : Prop :=
  exists policy hits batchHits,
    parse_line line = Ok (policy, hits, batchHits) /\ hits = Seq.sum batchHits.

(** The last comma-separated field of a line. *)
Definition last_field (line : string) : string :=
  List.last (Str.split comma line) EmptyString.

(** The number of comma-separated fields of a line. *)
Definition field_count (line : string) : nat :=
  List.length (Str.split comma line).

(** A text without line terminators, and the three line terminators. *)
Fixpoint no_eol (s : string) : bool :=
  match s with
  | EmptyString => true
  | String c s' => negb (Ascii.eqb c LF) && negb (Ascii.eqb c CR) && no_eol s'
  end.

Definition crlf : string := String CR (String LF EmptyString).
Definition cr : string := String CR EmptyString.

Definition is_eol (e : string) : Prop := e = nl \/ e = crlf \/ e = cr.

(** [s] without its first [a] and its last [b] characters. *)
Definition strip_ends (a b : nat) (s : string) : string :=
  string_of_list_ascii (rev (skipn b (rev (skipn a (list_ascii_of_string s))))).

(** The batch hits as the specification words them: two characters are
    taken off each end of the last field. *)
Definition batchHits_two_two (line : list string) : result (list Z) :=
  ResultMonad.list_map PyInt.int
    (Str.split space (strip_ends 2 2 (List.last line EmptyString))).

(** The format errors of a line: fewer fields than the three the loop body
    indexes, or a token that [int] rejects where the loop body converts one
    (field 2, and the space-separated tokens of the sliced last field). *)
Definition too_few_fields (line : string) : bool :=
  (field_count line <? 3)%nat.

Definition is_int (token : string) : bool :=
  match PyInt.int token with
  | Ok _ => true
  | Raise _ => false
  end.

Definition batch_tokens (line : string) : list string :=
  Str.split space (Str.slice (last_field line) 1 (-2)).

Definition int_tokens (line : string) : list string :=
  nth 2 (Str.split comma line) EmptyString :: batch_tokens line.

Definition bad_token (line : string) : bool :=
  negb (forallb is_int (int_tokens line)).

Definition format_error (line : string) : bool :=
  too_few_fields line || bad_token line.

Definition is_format_exn (e : exn) : Prop := e = IndexError \/ e = ValueError.

Definition is_file_exn (e : exn) : Prop :=
  e = FileNotFoundError \/ e = PermissionError.

(** The outcome and the output of the script as a function of the state of
    ["output.csv"] alone. *)
Definition outcome_of (f : file) : result unit * list string :=
  match f with
  | Missing => (Raise FileNotFoundError, [])
  | Unreadable => (Raise PermissionError, [])
  | Text content => run content
  end.

(** Every character of [s] passes the test [p]. *)
Fixpoint all_chars (p : ascii -> bool) (s : string) : bool :=
  match s with
  | EmptyString => true
  | String c s' => p c && all_chars p s'
  end.

(** The character [c] does not occur in [s]. *)
Definition lacks (c : ascii) (s : string) : bool :=
  all_chars (fun x => negb (Ascii.eqb x c)) s.

Definition is_digit (c : ascii) : bool :=
  match PyInt.digit_of c with
  | Some _ => true
  | None => false
  end.

Definition is_digit_or_minus (c : ascii) : bool :=
  is_digit c || Ascii.eqb c "-".

(** An integer within the interpreter's limit: fewer than
    [10 ^ max_str_digits] in absolute value, that is, with a decimal text
    of at most [max_str_digits] digits. *)
Definition within_limit (z : Z) : Prop :=
  Z.abs z < 10 ^ PyInt.max_str_digits.

(** The last field of a data line as the upstream writer lays it out: the
    tokens separated by single spaces, between brackets, then the line's
    ["\n"]. *)
Definition batch_field (tokens : list string) : string :=
  "[" ++ Str.join " " tokens ++ "]" ++ nl.

(** The data line that carries a record, with the integers in the decimal
    notation of [str]; [misses] stands for the unused field 1. *)
Definition record_line (policy misses : string) (hits : Z) (batchHits : list Z)
  : string :=
  Str.join "," [policy; misses; PyInt.str hits; batch_field (map PyInt.str batchHits)].

(** ** Notions used in the further properties *)

(** The number of occurrences of the character [c] in [s]. *)
Fixpoint count_char (c : ascii) (s : string) : nat :=
  match s with
  | EmptyString => 0%nat
  | String x s' => if Ascii.eqb x c then S (count_char c s') else count_char c s'
  end.

(** [s] with every ["\n"] written as ["\r\n"]. *)
Fixpoint dos_text (s : string) : string :=
  match s with
  | EmptyString => EmptyString
  | String c s' =>
      if Ascii.eqb c LF then String CR (String LF (dos_text s'))
      else String c (dos_text s')
  end.

(** [s] without its last character. *)
Definition chop (s : string) : string := strip_ends 0 1 s.

(** [record_line] without the line's ["\n"]: the last line of a file that
    does not end with a line terminator. *)
Definition unterminated_line (policy misses : string) (hits : Z)
  (batchHits : list Z) : string :=
  Str.join ","
    [policy; misses; PyInt.str hits;
     "[" ++ Str.join " " (map PyInt.str batchHits) ++ "]"].

(** An entry of a results file: the text of the unused field 1, and the
    record. *)
Definition entry : Type := (string * record)%type.

Definition entry_line (e : entry) : string :=
  let '(misses, (policy, hits, batchHits)) := e in
  record_line policy misses hits batchHits.

Definition entry_summary (e : entry) : string :=
  let '(_, (policy, hits, batchHits)) := e in
  summary policy hits batchHits ++ nl.

(** An entry the script accepts when written by [entry_line]: the two text
    fields hold no comma and no line terminator, there is at least one
    batch, the hits are the sum of the batch hits, and the hits and the
    batch hits are within the interpreter's limit on digits. *)
Definition well_formed_entry (e : entry) : Prop :=
  let '(misses, (policy, hits, batchHits)) := e in
  lacks comma policy = true /\ no_eol policy = true /\
  lacks comma misses = true /\ no_eol misses = true /\
  batchHits <> [] /\ hits = Seq.sum batchHits /\
  within_limit hits /\ Forall within_limit batchHits.

(** The results file with the given header line and entries. *)
Definition written_file (header : string) (entries : list entry) : string :=
  header ++ nl ++ String.concat EmptyString (map entry_line entries).

(** A line as the file hands it out: text free of line terminators followed
    by ["\n"], or, for the last line of a file that does not end with a
    terminator, such text alone, not empty. *)
Definition line_shape (l : string) : Prop :=
  exists body,
    no_eol body = true /\ (l = body ++ nl \/ (l = body /\ body <> EmptyString)).

(** ** The inputs of the worked examples *)

Definition sample_header : string := "policy,misses,hits,batch hits".

Definition greedy_line : string := "greedy,42,99,[3 5 7 84]".

Definition greedy_summary : string := "greedy, 99 = sum([3, 5, 7, 84])".

Definition lru_line : string := "lru,0,10,[2 2 2]".

Definition negative_line : string := "lru,0,-6,[-2 -2 -2]".

Definition negative_summary : string := "lru, -6 = sum([-2, -2, -2])".

(** A file whose second data line has too few fields and whose first data
    line is well formed but breaks the sum. *)
Definition mismatch_then_short : string :=
  sample_header ++ nl ++ lru_line ++ nl ++ "bad" ++ nl.

(** A file whose only data line is the single field ["[]"]. *)
Definition lone_brackets : string := sample_header ++ nl ++ "[]" ++ nl.

(** A file with a valid record followed by a line with too few fields. *)
Definition greedy_then_short : string :=
  sample_header ++ nl ++ greedy_line ++ nl ++ "bad" ++ nl.

(** A file with a valid record followed by one that breaks the sum. *)
Definition greedy_then_mismatch : string :=
  sample_header ++ nl ++ greedy_line ++ nl ++ lru_line ++ nl.

(** ** Lemmas on the monads and the loop *)

Lemma emit_nil w : emit [] w = w.
Proof. destruct w as [fs out]. unfold emit. simpl. now rewrite app_nil_r. Qed.

Lemma emit_emit a b w : emit b (emit a w) = emit (a ++ b) w.
Proof. unfold emit. simpl. now rewrite app_assoc. Qed.

Lemma loop_body_line_result line w :
  loop_body line w =
    match line_result line with
    | Ok s => (Ok tt, emit [s ++ nl] w)
    | Raise e => (Raise e, w)
    end.
Proof.
  unfold loop_body, line_result, IOMonad.bind, IOMonad.lift, ResultMonad.bind.
  destruct (parse_line line) as [[[policy hits] batchHits]|e]; [|reflexivity].
  destruct (assert (hits =? Seq.sum batchHits)); reflexivity.
Qed.

Lemma for_lines_scan f : forall w,
  for_lines f w = (fst (scan f), emit (snd (scan f)) w).
Proof.
  induction f as [|line f IH]; intros w; simpl.
  - now rewrite emit_nil.
  - unfold IOMonad.bind. rewrite loop_body_line_result.
    destruct (line_result line) as [s|e]; simpl.
    + rewrite IH, emit_emit. destruct (scan f) as [r out]. reflexivity.
    + now rewrite emit_nil.
Qed.

Lemma main_scan w :
  main w =
    match files w output_file with
    | Missing => (Raise FileNotFoundError, w)
    | Unreadable => (Raise PermissionError, w)
    | Text content =>
        match file_lines content with
        | [] => (Raise StopIteration, w)
        | _ :: f => (fst (scan f), emit (snd (scan f)) w)
        end
    end.
Proof.
  unfold main, IOMonad.bind, TextFile.open, IOMonad.lift, IOMonad.raise,
    IOMonad.ret, file_lines.
  destruct (files w output_file) as [| |content]; try reflexivity.
  destruct (TextFile.lines _) as [|header f]; simpl; [reflexivity|].
  apply for_lines_scan.
Qed.

Lemma run_scan content :
  run content =
    match file_lines content with
    | [] => (Raise StopIteration, [])
    | _ :: f => scan f
    end.
Proof.
  unfold run. rewrite main_scan. simpl.
  destruct (file_lines content) as [|header f]; [reflexivity|].
  simpl. destruct (scan f); reflexivity.
Qed.

Lemma line_result_ok line s :
  line_result line = Ok s <->
  exists policy hits batchHits,
    parse_line line = Ok (policy, hits, batchHits) /\
    hits = Seq.sum batchHits /\ s = summary policy hits batchHits.
Proof.
  unfold line_result, ResultMonad.bind, assert. split.
  - destruct (parse_line line) as [[[p h] b]|e]; [|discriminate].
    destruct (Z.eqb_spec h (Seq.sum b)); [|discriminate].
    intros [= <-]. now exists p, h, b.
  - intros (p & h & b & -> & Hs & ->).
    now rewrite (proj2 (Z.eqb_eq _ _) Hs).
Qed.

Lemma valid_line_iff line : valid_line line <-> exists s, line_result line = Ok s.
Proof.
  split.
  - intros (p & h & b & Hp & Hs). exists (summary p h b).
    apply line_result_ok. now exists p, h, b.
  - intros [s Hs]. apply line_result_ok in Hs as (p & h & b & Hp & Hh & _).
    now exists p, h, b.
Qed.

Lemma line_result_mismatch line policy hits batchHits :
  parse_line line = Ok (policy, hits, batchHits) ->
  hits <> Seq.sum batchHits ->
  line_result line = Raise AssertionError.
Proof.
  intros Hp Hne. unfold line_result, ResultMonad.bind, assert. rewrite Hp.
  now rewrite (proj2 (Z.eqb_neq _ _) Hne).
Qed.

Lemma line_result_parse_error line e :
  parse_line line = Raise e -> line_result line = Raise e.
Proof. intros Hp. unfold line_result, ResultMonad.bind. now rewrite Hp. Qed.

(** ** Lemmas on indexing and splitting *)

Lemma getitem_nat {A : Type} (xs : list A) (i : nat) :
  Seq.getitem xs (Z.of_nat i) =
    match nth_error xs i with
    | Some x => Ok x
    | None => Raise IndexError
    end.
Proof.
  assert (H0 : (Z.of_nat i <? 0) = false) by (apply Z.ltb_ge; lia).
  unfold Seq.getitem. cbv zeta. rewrite H0. cbv iota. rewrite H0, Nat2Z.id.
  simpl orb.
  destruct (Z.leb_spec (Z.of_nat (length xs)) (Z.of_nat i)) as [Hle|Hlt].
  - assert (Hn : nth_error xs i = None) by (apply nth_error_None; lia).
    now rewrite Hn.
  - reflexivity.
Qed.

Lemma nth_error_last {A : Type} (xs : list A) (d : A) :
  xs <> [] -> nth_error xs (Nat.pred (length xs)) = Some (List.last xs d).
Proof.
  induction xs as [|x xs IH]; [congruence|]. intros _.
  destruct xs as [|y ys]; [reflexivity|].
  change (nth_error (y :: ys) (Nat.pred (length (y :: ys))) =
          Some (List.last (y :: ys) d)).
  apply IH. discriminate.
Qed.

Lemma getitem_last {A : Type} (xs : list A) (d : A) :
  Seq.getitem xs (-1) =
    match xs with
    | [] => Raise IndexError
    | _ :: _ => Ok (List.last xs d)
    end.
Proof.
  unfold Seq.getitem. cbv zeta. change (-1 <? 0) with true. cbv iota.
  destruct xs as [|x xs]; [reflexivity|].
  set (l := x :: xs). assert (Hl : l <> []) by discriminate.
  assert (Hlen : (0 < length l)%nat) by (unfold l; simpl; lia).
  replace (-1 + Z.of_nat (length l)) with (Z.of_nat (Nat.pred (length l))) by lia.
  replace (Z.of_nat (Nat.pred (length l)) <? 0) with false
    by (symmetry; apply Z.ltb_ge; lia).
  replace (Z.of_nat (length l) <=? Z.of_nat (Nat.pred (length l))) with false
    by (symmetry; apply Z.leb_gt; lia).
  simpl orb. cbv iota. rewrite Nat2Z.id.
  now rewrite (nth_error_last l d Hl).
Qed.

Lemma split_nonempty sep s : Str.split sep s <> [].
Proof.
  destruct s as [|c s]; simpl; [discriminate|].
  destruct (Ascii.eqb c sep); [discriminate|].
  destruct (Str.split sep s); discriminate.
Qed.

Lemma list_map_ok_length {A B : Type} (f : A -> result B) xs ys :
  ResultMonad.list_map f xs = Ok ys -> length ys = length xs.
Proof.
  revert ys. induction xs as [|x xs IH]; simpl; intros ys.
  - now intros [= <-].
  - unfold ResultMonad.bind. destruct (f x) as [y|e]; [|discriminate].
    destruct (ResultMonad.list_map f xs) as [zs|e]; [|discriminate].
    intros [= <-]. simpl. now rewrite (IH zs eq_refl).
Qed.

Lemma list_map_int_forallb tokens :
  forallb is_int tokens = true <->
  exists zs, ResultMonad.list_map PyInt.int tokens = Ok zs.
Proof.
  induction tokens as [|t ts IH]; simpl.
  - split; [now exists []|reflexivity].
  - unfold is_int at 1, ResultMonad.bind.
    destruct (PyInt.int t) as [z|e]; simpl.
    + rewrite IH. split.
      * intros [zs ->]. now exists (z :: zs).
      * destruct (ResultMonad.list_map PyInt.int ts) as [zs|e'];
          [now exists zs|now intros [? [=]]].
    + split; [discriminate|now intros [? [=]]].
Qed.

Lemma int_raise s e : PyInt.int s = Raise e -> e = ValueError.
Proof.
  unfold PyInt.int. cbv zeta. destruct (PyInt.literal _) as [z|].
  - destruct (_ <=? _); [discriminate|now intros [= <-]].
  - now intros [= <-].
Qed.

Lemma list_map_int_raise tokens e :
  ResultMonad.list_map PyInt.int tokens = Raise e -> e = ValueError.
Proof.
  induction tokens as [|t ts IH]; simpl; [discriminate|].
  unfold ResultMonad.bind.
  destruct (PyInt.int t) as [z|e0] eqn:Ht; [|intros [= <-]; exact (int_raise _ _ Ht)].
  destruct (ResultMonad.list_map PyInt.int ts); [discriminate|].
  intros [= <-]. now apply IH.
Qed.

(** ** Lemmas on [scan] *)

Lemma scan_all_valid f :
  (forall l, In l f -> valid_line l) -> scan f = (Ok tt, map printed f).
Proof.
  induction f as [|line f IH]; intros Hv; simpl; [reflexivity|].
  destruct (proj1 (valid_line_iff line) (Hv line (or_introl eq_refl))) as [s Hs].
  unfold printed at 1. rewrite Hs, IH; [reflexivity|].
  intros l Hl. apply Hv. now right.
Qed.

Lemma scan_first_failure f : forall k line e,
  nth_error f k = Some line ->
  line_result line = Raise e ->
  (forall j l, (j < k)%nat -> nth_error f j = Some l -> valid_line l) ->
  scan f = (Raise e, map printed (firstn k f)).
Proof.
  induction f as [|l0 f IH]; intros k line e Hk He Hpre.
  - destruct k; discriminate.
  - destruct k as [|k]; simpl in Hk |- *.
    + injection Hk as ->. now rewrite He.
    + destruct (proj1 (valid_line_iff l0) (Hpre 0%nat l0 (Nat.lt_0_succ k) eq_refl))
        as [s Hs].
      unfold printed at 1. rewrite Hs, (IH k line e Hk He); [reflexivity|].
      intros j l Hj Hl. apply (Hpre (S j) l); [lia|exact Hl].
Qed.


Lemma scan_failure_bound f : forall k line e,
  nth_error f k = Some line ->
  line_result line = Raise e ->
  exists e', fst (scan f) = Raise e' /\ (length (snd (scan f)) <= k)%nat.
Proof.
  induction f as [|l0 f IH]; intros k line e Hk He.
  - destruct k; discriminate.
  - simpl. destruct k as [|k]; simpl in Hk.
    + injection Hk as ->. rewrite He. exists e. simpl. split; [reflexivity|lia].
    + destruct (line_result l0) as [s|e0].
      * destruct (IH k line e Hk He) as (e' & Hf & Hlen).
        destruct (scan f) as [r out]; simpl in *. exists e'. split; [exact Hf|lia].
      * exists e0. simpl. split; [reflexivity|lia].
Qed.

Lemma scan_out_valid f o :
  In o (snd (scan f)) ->
  exists line policy hits batchHits,
    In line f /\ parse_line line = Ok (policy, hits, batchHits) /\
    hits = Seq.sum batchHits /\ o = summary policy hits batchHits ++ nl.
Proof.
  induction f as [|l0 f IH]; simpl; [contradiction|].
  destruct (line_result l0) as [s|e] eqn:Hl; [|contradiction].
  destruct (scan f) as [r out]; simpl in *. intros [<-|Hin].
  - apply line_result_ok in Hl as (p & h & b & Hp & Hh & ->).
    exists l0, p, h, b. auto.
  - destruct (IH Hin) as (line & p & h & b & Hi & Hrest).
    exists line, p, h, b. auto.
Qed.

(** ** Lemmas on the loop body's assignments *)

Lemma policy_of_split line :
  exists policy, policy_of (Str.split comma line) = Ok policy.
Proof.
  unfold policy_of. rewrite (getitem_nat _ 0).
  destruct (Str.split comma line) as [|p ps] eqn:Hs.
  - now destruct (split_nonempty comma line).
  - now exists p.
Qed.

Lemma hits_of_few_fields line :
  too_few_fields line = true -> hits_of (Str.split comma line) = Raise IndexError.
Proof.
  unfold too_few_fields, field_count, hits_of. intros Hlt.
  apply Nat.ltb_lt in Hlt. rewrite (getitem_nat _ 2).
  assert (Hn : nth_error (Str.split comma line) 2 = None)
    by (apply nth_error_None; lia).
  now rewrite Hn.
Qed.

Lemma hits_of_enough_fields line :
  too_few_fields line = false ->
  hits_of (Str.split comma line) = PyInt.int (nth 2 (Str.split comma line) EmptyString).
Proof.
  unfold too_few_fields, field_count, hits_of. intros Hge.
  apply Nat.ltb_ge in Hge. rewrite (getitem_nat _ 2).
  rewrite (nth_error_nth' _ EmptyString) by lia. reflexivity.
Qed.

Lemma batchHits_of_split line :
  batchHits_of (Str.split comma line) =
    ResultMonad.list_map PyInt.int (batch_tokens line).
Proof.
  unfold batchHits_of, batch_tokens, last_field.
  rewrite (getitem_last _ EmptyString).
  destruct (Str.split comma line) eqn:Hs; [|reflexivity].
  now destruct (split_nonempty comma line).
Qed.

Lemma parse_line_few_fields line :
  too_few_fields line = true -> parse_line line = Raise IndexError.
Proof.
  intros Hf. unfold parse_line. destruct (policy_of_split line) as [p ->].
  cbn [ResultMonad.bind]. now rewrite (hits_of_few_fields line Hf).
Qed.

Lemma parse_line_enough_fields line :
  too_few_fields line = false ->
  parse_line line =
    (hits <- PyInt.int (nth 2 (Str.split comma line) EmptyString) ;;
     batchHits <- ResultMonad.list_map PyInt.int (batch_tokens line) ;;
     Ok (hd EmptyString (Str.split comma line), hits, batchHits))%result.
Proof.
  intros Hf. unfold parse_line.
  rewrite (hits_of_enough_fields line Hf), batchHits_of_split.
  unfold policy_of. rewrite (getitem_nat _ 0).
  destruct (Str.split comma line) as [|p ps] eqn:Hs; [|reflexivity].
  now destruct (split_nonempty comma line).
Qed.

Lemma parse_line_raise line e :
  parse_line line = Raise e ->
  (e = IndexError /\ too_few_fields line = true) \/
  (e = ValueError /\ too_few_fields line = false /\ bad_token line = true).
Proof.
  destruct (too_few_fields line) eqn:Hf.
  - rewrite (parse_line_few_fields line Hf). intros [= <-]. now left.
  - rewrite (parse_line_enough_fields line Hf). unfold ResultMonad.bind.
    unfold bad_token, int_tokens. cbn [forallb]. unfold is_int at 1.
    destruct (PyInt.int (nth 2 _ _)) as [h|e0] eqn:Hh.
    + destruct (ResultMonad.list_map PyInt.int (batch_tokens line)) as [b|e1] eqn:Hb;
        [discriminate|].
      intros [= <-]. right. rewrite (list_map_int_raise _ _ Hb).
      repeat split. cbn [andb]. apply negb_true_iff.
      destruct (forallb is_int (batch_tokens line)) eqn:Hall; [|reflexivity].
      apply list_map_int_forallb in Hall as [zs Hzs]. congruence.
    + intros [= <-]. right. now rewrite (int_raise _ _ Hh).
Qed.

Lemma parse_line_format_error line :
  format_error line = true <-> exists e, parse_line line = Raise e.
Proof.
  unfold format_error. split.
  - destruct (too_few_fields line) eqn:Hf; simpl.
    + intros _. exists IndexError. now apply parse_line_few_fields.
    + intros Hb. rewrite (parse_line_enough_fields line Hf).
      unfold bad_token, int_tokens in Hb. cbn [forallb] in Hb.
      unfold is_int at 1 in Hb. unfold ResultMonad.bind.
      destruct (PyInt.int (nth 2 _ _)) as [h|e0]; [|now exists e0].
      cbn [andb] in Hb. apply negb_true_iff in Hb.
      destruct (ResultMonad.list_map PyInt.int (batch_tokens line)) as [b|e1] eqn:Hm;
        [|now exists e1].
      assert (Ht : forallb is_int (batch_tokens line) = true)
        by (apply list_map_int_forallb; now exists b).
      congruence.
  - intros [e He]. apply parse_line_raise in He as [[_ ->]|(_ & -> & ->)];
      reflexivity.
Qed.


Lemma valid_line_no_format_error line :
  valid_line line -> format_error line = false.
Proof.
  intros (p & h & b & Hp & _).
  destruct (format_error line) eqn:Hf; [|reflexivity].
  apply parse_line_format_error in Hf as [e He]. congruence.
Qed.

(** ** Lemmas on slicing *)

Lemma substring_firstn_skipn s : forall a m,
  String.substring a m s =
    string_of_list_ascii (firstn m (skipn a (list_ascii_of_string s))).
Proof.
  induction s as [|c s IH]; intros a m.
  - destruct a, m; reflexivity.
  - destruct a as [|a].
    + destruct m as [|m]; [reflexivity|]. simpl. now rewrite IH.
    + simpl. apply IH.
Qed.

Lemma length_list_ascii_of_string s :
  length (list_ascii_of_string s) = String.length s.
Proof. induction s; simpl; congruence. Qed.

Lemma slice_strip_ends s (a b : nat) :
  (0 < b)%nat ->
  Str.slice s (Z.of_nat a) (- Z.of_nat b) = strip_ends a b s.
Proof.
  intros Hb. unfold Str.slice, strip_ends, Str.slice_bound, Str.len.
  rewrite substring_firstn_skipn, skipn_rev, rev_involutive.
  rewrite length_skipn, length_list_ascii_of_string.
  replace (Z.of_nat a <? 0) with false by (symmetry; apply Z.ltb_ge; lia).
  replace (- Z.of_nat b <? 0) with true by (symmetry; apply Z.ltb_lt; lia).
  set (n := String.length s).
  destruct (Nat.le_gt_cases n a) as [Hle|Hgt].
  - rewrite !skipn_all2
      by (rewrite length_list_ascii_of_string; fold n; lia).
    now rewrite !firstn_nil.
  - do 2 f_equal; [lia|f_equal; lia].
Qed.

Lemma slice_1_m2 s : Str.slice s 1 (-2) = strip_ends 1 2 s.
Proof. apply (slice_strip_ends s 1 2). lia. Qed.

(** ** Lemmas on the lines of a file *)

Lemma lines_nil s : TextFile.lines s = [] -> s = EmptyString.
Proof.
  destruct s as [|c s]; [reflexivity|]. simpl.
  destruct (Ascii.eqb c LF); [discriminate|].
  destruct (TextFile.lines s); discriminate.
Qed.

Lemma universal_newlines_nil s :
  TextFile.universal_newlines s = EmptyString -> s = EmptyString.
Proof.
  destruct s as [|c s]; [reflexivity|]. simpl.
  destruct (Ascii.eqb c CR); [|discriminate].
  destruct s as [|c' s']; [discriminate|].
  destruct (Ascii.eqb c' LF); discriminate.
Qed.

Lemma file_lines_nil content : file_lines content = [] <-> content = EmptyString.
Proof.
  split.
  - intros H. now apply universal_newlines_nil, lines_nil.
  - now intros ->.
Qed.

Lemma file_lines_lf rest :
  file_lines (nl ++ rest) = nl :: file_lines rest.
Proof. reflexivity. Qed.

Lemma file_lines_crlf rest :
  file_lines (crlf ++ rest) = nl :: file_lines rest.
Proof. reflexivity. Qed.

Lemma file_lines_cr rest :
  (forall rest', rest <> String LF rest') ->
  file_lines (cr ++ rest) = nl :: file_lines rest.
Proof.
  intros Hr. unfold file_lines. simpl.
  destruct rest as [|c rest']; [reflexivity|].
  destruct (Ascii.eqb_spec c LF) as [->|Hc]; [now destruct (Hr rest')|].
  reflexivity.
Qed.

Lemma file_lines_cons c rest line ls :
  Ascii.eqb c LF = false -> Ascii.eqb c CR = false ->
  file_lines rest = line :: ls ->
  file_lines (String c rest) = String c line :: ls.
Proof.
  unfold file_lines. intros Hlf Hcr Hrest. simpl.
  rewrite Hcr. simpl. now rewrite Hlf, Hrest.
Qed.

(** A header without terminators, then a terminator: the first line is
    the header with ["\n"], whatever follows. *)
Lemma file_lines_header header eol rest :
  no_eol header = true ->
  eol = nl \/ eol = crlf \/ (eol = cr /\ forall rest', rest <> String LF rest') ->
  file_lines (header ++ eol ++ rest) = (header ++ nl) :: file_lines rest.
Proof.
  intros Hh He. induction header as [|c header IH].
  - destruct He as [->|[->|[-> Hr]]].
    + apply file_lines_lf.
    + apply file_lines_crlf.
    + now apply file_lines_cr.
  - simpl in Hh. apply andb_prop in Hh as [Hc Hh].
    apply andb_prop in Hc as [Hlf Hcr].
    apply negb_true_iff in Hlf, Hcr.
    simpl. apply file_lines_cons; auto.
Qed.

Lemma main_outcome w :
  main w = (fst (outcome_of (files w output_file)),
            emit (snd (outcome_of (files w output_file))) w).
Proof.
  rewrite main_scan. unfold outcome_of.
  destruct (files w output_file) as [| |content]; simpl;
    try (now rewrite emit_nil).
  rewrite run_scan. destruct (file_lines content); simpl; [|reflexivity].
  now rewrite emit_nil.
Qed.

Lemma run_header content header data :
  file_lines content = header :: data -> run content = scan data.
Proof. intros H. now rewrite run_scan, H. Qed.

(** ** Lemmas on characters, splitting and joining *)

Lemma all_chars_app p a b :
  all_chars p (a ++ b) = all_chars p a && all_chars p b.
Proof.
  induction a as [|c a IH]; simpl; [reflexivity|].
  now rewrite IH, andb_assoc.
Qed.

Lemma all_chars_impl (p q : ascii -> bool) s :
  (forall c, p c = true -> q c = true) ->
  all_chars p s = true -> all_chars q s = true.
Proof.
  intros Hpq. induction s as [|c s IH]; simpl; [reflexivity|].
  intros H. apply andb_prop in H as [Hc Hs].
  now rewrite (Hpq c Hc), (IH Hs).
Qed.

Lemma split_lacks sep s : lacks sep s = true -> Str.split sep s = [s].
Proof.
  unfold lacks. induction s as [|c s IH]; simpl; [reflexivity|].
  intros H. apply andb_prop in H as [Hc Hs]. apply negb_true_iff in Hc.
  now rewrite Hc, (IH Hs).
Qed.

Lemma split_app_sep sep a b :
  lacks sep a = true ->
  Str.split sep (a ++ String sep b) = a :: Str.split sep b.
Proof.
  unfold lacks. induction a as [|c a IH]; simpl.
  - intros _. now rewrite Ascii.eqb_refl.
  - intros H. apply andb_prop in H as [Hc Ha]. apply negb_true_iff in Hc.
    now rewrite Hc, (IH Ha).
Qed.

Lemma split_join sep tokens :
  tokens <> [] ->
  Forall (fun t => lacks sep t = true) tokens ->
  Str.split sep (Str.join (String sep EmptyString) tokens) = tokens.
Proof.
  unfold Str.join. induction tokens as [|x tokens IH]; [congruence|].
  intros _ Hall. inversion Hall as [|? ? Hx Hrest]; subst.
  destruct tokens as [|y tokens].
  - simpl. now apply split_lacks.
  - change (String.concat (String sep EmptyString) (x :: y :: tokens))
      with (x ++ String sep (String.concat (String sep EmptyString) (y :: tokens))).
    rewrite (split_app_sep sep x _ Hx). f_equal. apply IH; [discriminate|exact Hrest].
Qed.

Lemma lacks_join c sep tokens :
  lacks c sep = true ->
  Forall (fun t => lacks c t = true) tokens ->
  lacks c (Str.join sep tokens) = true.
Proof.
  unfold Str.join, lacks. intros Hsep.
  induction tokens as [|x tokens IH]; intros Hall; [reflexivity|].
  inversion Hall as [|? ? Hx Hrest]; subst.
  destruct tokens as [|y tokens]; [exact Hx|].
  change (String.concat sep (x :: y :: tokens))
    with (x ++ sep ++ String.concat sep (y :: tokens)).
  now rewrite !all_chars_app, Hx, Hsep, (IH Hrest).
Qed.

Lemma list_ascii_of_string_app a b :
  list_ascii_of_string (a ++ b) = (list_ascii_of_string a ++ list_ascii_of_string b)%list.
Proof. induction a as [|c a IH]; simpl; [reflexivity|now rewrite IH]. Qed.

Lemma slice_batch_field tokens :
  Str.slice (batch_field tokens) 1 (-2) = Str.join " " tokens.
Proof.
  rewrite slice_1_m2. unfold batch_field, strip_ends.
  set (x := Str.join " " tokens).
  change ("[" ++ x ++ "]" ++ nl) with (String "[" (x ++ "]" ++ nl)).
  cbn [list_ascii_of_string skipn].
  rewrite list_ascii_of_string_app, rev_app_distr. simpl.
  rewrite rev_involutive. apply string_of_list_ascii_of_string.
Qed.

(** ** Lemmas on decimal notation *)

Lemma digit_not_special c :
  is_digit c = true ->
  PyInt.is_space c = false /\ Ascii.eqb c comma = false /\
  Ascii.eqb c space = false /\ Ascii.eqb c underscore = false /\
  Ascii.eqb c "-" = false /\ Ascii.eqb c "+" = false.
Proof.
  destruct c as [[|] [|] [|] [|] [|] [|] [|] [|]];
    vm_compute; intros H; try discriminate H; repeat split.
Qed.

Lemma string_of_uint_digits d :
  all_chars is_digit (NilEmpty.string_of_uint d) = true.
Proof. induction d; simpl; auto. Qed.

Lemma digits_step c acc after_digit s d :
  Ascii.eqb c underscore = false ->
  PyInt.digit_of c = Some d ->
  PyInt.digits acc after_digit (String c s) = PyInt.digits (10 * acc + d) true s.
Proof. intros Hu Hd. simpl. now rewrite Hu, Hd. Qed.

Lemma digits_string_of_uint_pos d : forall p,
  PyInt.digits (Z.pos p) true (NilEmpty.string_of_uint d) =
  Some (Z.pos (Pos.of_uint_acc d p)).
Proof.
  induction d; intros p; cbn [NilEmpty.string_of_uint Pos.of_uint_acc];
    [reflexivity|..];
    erewrite digits_step by reflexivity;
    rewrite <- IHd; f_equal;
    try match goal with
        | |- context [ord ?c - 48] =>
            let v := eval vm_compute in (ord c - 48) in
            change (ord c - 48) with v
        end;
    lia.
Qed.

Lemma digits_string_of_uint d : forall after_digit,
  after_digit = true \/ d <> Decimal.Nil ->
  PyInt.digits 0 after_digit (NilEmpty.string_of_uint d) =
  Some (Z.of_N (Pos.of_uint d)).
Proof.
  induction d; intros after_digit Hd;
    cbn [NilEmpty.string_of_uint Pos.of_uint];
    [destruct Hd as [->|Hd]; [reflexivity|congruence]|..];
    erewrite digits_step by reflexivity.
  - apply IHd. now left.
  - apply (digits_string_of_uint_pos d 1).
  - apply (digits_string_of_uint_pos d 2).
  - apply (digits_string_of_uint_pos d 3).
  - apply (digits_string_of_uint_pos d 4).
  - apply (digits_string_of_uint_pos d 5).
  - apply (digits_string_of_uint_pos d 6).
  - apply (digits_string_of_uint_pos d 7).
  - apply (digits_string_of_uint_pos d 8).
  - apply (digits_string_of_uint_pos d 9).
Qed.

Lemma lstrip_no_space s :
  all_chars (fun c => negb (PyInt.is_space c)) s = true -> PyInt.lstrip s = s.
Proof.
  destruct s as [|c s]; simpl; [reflexivity|].
  intros H. apply andb_prop in H as [Hc _]. apply negb_true_iff in Hc.
  now rewrite Hc.
Qed.

Lemma rstrip_no_space s :
  all_chars (fun c => negb (PyInt.is_space c)) s = true -> PyInt.rstrip s = s.
Proof.
  induction s as [|c s IH]; simpl; [reflexivity|].
  intros H. apply andb_prop in H as [Hc Hs]. apply negb_true_iff in Hc.
  rewrite (IH Hs), Hc. now destruct s.
Qed.

Lemma digit_or_minus_not_special c :
  is_digit_or_minus c = true ->
  PyInt.is_space c = false /\ Ascii.eqb c comma = false /\
  Ascii.eqb c space = false.
Proof.
  destruct c as [[|] [|] [|] [|] [|] [|] [|] [|]];
    vm_compute; intros H; try discriminate H; repeat split.
Qed.

Lemma string_of_uint_nonnil d :
  d <> Decimal.Nil -> NilZero.string_of_uint d = NilEmpty.string_of_uint d.
Proof. destruct d; [congruence|reflexivity..]. Qed.

Lemma str_chars z : all_chars is_digit_or_minus (PyInt.str z) = true.
Proof.
  assert (Hu : forall d, all_chars is_digit_or_minus (NilZero.string_of_uint d) = true).
  { intros d. destruct (Decimal.uint_eq_dec d Decimal.Nil) as [->|Hd]; [reflexivity|].
    rewrite (string_of_uint_nonnil d Hd).
    apply (all_chars_impl is_digit); [|apply string_of_uint_digits].
    intros c Hc. unfold is_digit_or_minus. now rewrite Hc. }
  unfold PyInt.str. destruct z as [|p|p]; simpl; [reflexivity|apply Hu|apply Hu].
Qed.

Lemma str_no_space z :
  all_chars (fun c => negb (PyInt.is_space c)) (PyInt.str z) = true.
Proof.
  apply (all_chars_impl is_digit_or_minus); [|apply str_chars].
  intros c Hc. now rewrite (proj1 (digit_or_minus_not_special c Hc)).
Qed.

Lemma str_lacks_comma z : lacks comma (PyInt.str z) = true.
Proof.
  apply (all_chars_impl is_digit_or_minus); [|apply str_chars].
  intros c Hc. now rewrite (proj1 (proj2 (digit_or_minus_not_special c Hc))).
Qed.

Lemma str_lacks_space z : lacks space (PyInt.str z) = true.
Proof.
  apply (all_chars_impl is_digit_or_minus); [|apply str_chars].
  intros c Hc. now rewrite (proj2 (proj2 (digit_or_minus_not_special c Hc))).
Qed.

Lemma literal_string_of_uint p :
  PyInt.literal (NilEmpty.string_of_uint (Pos.to_uint p)) = Some (Z.pos p).
Proof.
  pose proof (DecimalPos.Unsigned.to_uint_nonnil p) as Hn.
  pose proof (string_of_uint_digits (Pos.to_uint p)) as Hd.
  pose proof (digits_string_of_uint (Pos.to_uint p) false (or_intror Hn)) as Hv.
  rewrite DecimalPos.Unsigned.of_to in Hv.
  destruct (NilEmpty.string_of_uint (Pos.to_uint p)) as [|c s] eqn:Hs.
  - discriminate Hv.
  - simpl in Hd. apply andb_prop in Hd as [Hc _].
    destruct (digit_not_special c Hc) as (_ & _ & _ & _ & Hminus & Hplus).
    unfold PyInt.literal. now rewrite Hminus, Hplus.
Qed.

(** The literal of [str(z)] is [z]. *)
Lemma literal_str z : PyInt.literal (PyInt.str z) = Some z.
Proof.
  unfold PyInt.str. destruct z as [|p|p]; [reflexivity|..]; simpl Z.to_int;
    cbn [NilZero.string_of_int];
    rewrite (string_of_uint_nonnil _ (DecimalPos.Unsigned.to_uint_nonnil p)).
  - apply literal_string_of_uint.
  - cbn [PyInt.literal]. change (Ascii.eqb "-" "-") with true. cbv iota.
    pose proof (digits_string_of_uint (Pos.to_uint p) false
                  (or_intror (DecimalPos.Unsigned.to_uint_nonnil p))) as Hv.
    rewrite DecimalPos.Unsigned.of_to in Hv. now rewrite Hv.
Qed.

(** [int] on a text without blanks: the literal, within the limit. *)
Lemma int_no_space s :
  all_chars (fun c => negb (PyInt.is_space c)) s = true ->
  PyInt.int s =
    match PyInt.literal s with
    | Some z =>
        if PyInt.digit_count s <=? PyInt.max_str_digits then Ok z
        else Raise ValueError
    | None => Raise ValueError
    end.
Proof.
  intros H. unfold PyInt.int. cbv zeta.
  now rewrite (lstrip_no_space _ H), (rstrip_no_space _ H).
Qed.

Lemma int_str_limit z :
  PyInt.int (PyInt.str z) =
    if PyInt.digit_count (PyInt.str z) <=? PyInt.max_str_digits then Ok z
    else Raise ValueError.
Proof. now rewrite (int_no_space _ (str_no_space z)), literal_str. Qed.

(** ** Lemmas on the digit limit *)

Lemma digit_count_nonneg s : 0 <= PyInt.digit_count s.
Proof.
  induction s as [|c s IH]; cbn [PyInt.digit_count]; [lia|].
  destruct (PyInt.digit_of c); lia.
Qed.

Lemma digit_count_app a b :
  PyInt.digit_count (a ++ b) = PyInt.digit_count a + PyInt.digit_count b.
Proof.
  induction a as [|c a IH]; cbn [append PyInt.digit_count]; [reflexivity|].
  destruct (PyInt.digit_of c); lia.
Qed.

Lemma digit_of_range c d : PyInt.digit_of c = Some d -> 0 <= d <= 9.
Proof.
  unfold PyInt.digit_of.
  destruct ((48 <=? ord c) && (ord c <=? 57)) eqn:Hr; [|discriminate].
  intros [= <-]. apply andb_prop in Hr as [Hlo Hhi].
  apply Z.leb_le in Hlo, Hhi. lia.
Qed.

Lemma pow10_succ n : 0 <= n -> 10 ^ (1 + n) = 10 * 10 ^ n.
Proof. intros Hn. rewrite Z.add_comm. now apply Z.pow_succ_r. Qed.

(** A run of [k] digits read after the value [acc] gives at least
    [acc * 10 ^ k]. *)
Lemma digits_lower_bound s :
  all_chars is_digit s = true ->
  forall acc m,
    1 <= acc -> PyInt.digits acc true s = Some m ->
    acc * 10 ^ PyInt.digit_count s <= m.
Proof.
  induction s as [|c s IH]; cbn [all_chars PyInt.digits PyInt.digit_count];
    intros Hs acc m Hacc.
  - intros [= <-]. rewrite Z.pow_0_r. lia.
  - apply andb_prop in Hs as [Hc Hs].
    destruct (digit_not_special c Hc) as (_ & _ & _ & Hu & _).
    unfold is_digit in Hc. destruct (PyInt.digit_of c) as [d|] eqn:Hd;
      [|discriminate].
    pose proof (digit_of_range c d Hd) as Hr. rewrite Hu. intros Hm.
    pose proof (IH Hs (10 * acc + d) m ltac:(lia) Hm) as Hb.
    rewrite (pow10_succ _ (digit_count_nonneg s)).
    assert (0 < 10 ^ PyInt.digit_count s)
      by (apply Z.pow_pos_nonneg; [lia|apply digit_count_nonneg]).
    nia.
Qed.

(** Whatever is read after the value [acc], with [k] digits in it, gives
    less than [(acc + 1) * 10 ^ k]. *)
Lemma digits_upper_bound s :
  forall acc after_digit m,
    0 <= acc -> PyInt.digits acc after_digit s = Some m ->
    0 <= m < (acc + 1) * 10 ^ PyInt.digit_count s.
Proof.
  induction s as [|c s IH]; cbn [PyInt.digits PyInt.digit_count];
    intros acc after_digit m Hacc.
  - destruct after_digit; [|discriminate]. intros [= <-].
    rewrite Z.pow_0_r. lia.
  - destruct (Ascii.eqb_spec c underscore) as [->|Hc].
    + change (PyInt.digit_of underscore) with (@None Z). cbv iota.
      destruct after_digit; [|discriminate]. now apply IH.
    + destruct (PyInt.digit_of c) as [d|] eqn:Hd; [|discriminate].
      pose proof (digit_of_range c d Hd) as Hr. intros Hm.
      pose proof (IH (10 * acc + d) true m ltac:(lia) Hm) as Hb.
      rewrite (pow10_succ _ (digit_count_nonneg s)).
      assert (0 < 10 ^ PyInt.digit_count s)
        by (apply Z.pow_pos_nonneg; [lia|apply digit_count_nonneg]).
      nia.
Qed.

Lemma literal_upper_bound s z :
  PyInt.literal s = Some z -> Z.abs z < 10 ^ PyInt.digit_count s.
Proof.
  destruct s as [|c s]; [discriminate|]. cbn [PyInt.literal].
  destruct (Ascii.eqb_spec c "-"%char) as [->|Hminus];
    [|destruct (Ascii.eqb_spec c "+"%char) as [->|Hplus]].
  - change (PyInt.digit_count (String "-" s)) with (PyInt.digit_count s).
    destruct (PyInt.digits 0 false s) as [m|] eqn:Hm; [|discriminate].
    intros [= <-]. pose proof (digits_upper_bound s 0 false m (Z.le_refl 0) Hm). lia.
  - change (PyInt.digit_count (String "+" s)) with (PyInt.digit_count s).
    intros Hm. pose proof (digits_upper_bound s 0 false z (Z.le_refl 0) Hm). lia.
  - intros Hm.
    pose proof (digits_upper_bound (String c s) 0 false z (Z.le_refl 0) Hm). lia.
Qed.

Lemma to_uint_head p u : Pos.to_uint p <> Decimal.D0 u.
Proof.
  intros E. pose proof (DecimalPos.Unsigned.to_of (Pos.to_uint p)) as H.
  rewrite DecimalPos.Unsigned.of_to in H. cbn [N.to_uint] in H.
  destruct (Decimal.uint_eq_dec (Decimal.nzhead (Pos.to_uint p)) Decimal.Nil)
    as [Hn|Hn].
  - apply DecimalFacts.unorm_0 in Hn. rewrite Hn in H.
    exact (DecimalPos.Unsigned.to_uint_nonzero p H).
  - rewrite (DecimalFacts.unorm_nzhead _ Hn) in H. rewrite E in H at 1.
    symmetry in H. exact (DecimalFacts.nzhead_nonzero _ _ H).
Qed.

(** The text of a positive integer starts with a digit that is not zero. *)
Lemma str_pos_head p :
  exists c s d,
    PyInt.str (Z.pos p) = String c s /\ PyInt.digit_of c = Some d /\ 1 <= d.
Proof.
  unfold PyInt.str. simpl Z.to_int. cbn [NilZero.string_of_int].
  rewrite (string_of_uint_nonnil _ (DecimalPos.Unsigned.to_uint_nonnil p)).
  pose proof (DecimalPos.Unsigned.to_uint_nonnil p) as Hn.
  pose proof (to_uint_head p) as H0.
  destruct (Pos.to_uint p) as [|u|u|u|u|u|u|u|u|u|u];
    [congruence|now destruct (H0 u)|..];
    cbn [NilEmpty.string_of_uint]; do 3 eexists;
    (split; [reflexivity|split; [reflexivity|vm_compute; discriminate]]).
Qed.

Lemma str_pos_all_digits p : all_chars is_digit (PyInt.str (Z.pos p)) = true.
Proof.
  unfold PyInt.str. simpl Z.to_int. cbn [NilZero.string_of_int].
  rewrite (string_of_uint_nonnil _ (DecimalPos.Unsigned.to_uint_nonnil p)).
  apply string_of_uint_digits.
Qed.

Lemma digits_first s acc :
  s <> EmptyString -> all_chars is_digit s = true ->
  PyInt.digits acc false s = PyInt.digits acc true s.
Proof.
  destruct s as [|c s]; [congruence|]. intros _ Hs. simpl in *.
  apply andb_prop in Hs as [Hc _].
  destruct (digit_not_special c Hc) as (_ & _ & _ & Hu & _). now rewrite Hu.
Qed.

Lemma literal_digits s :
  s <> EmptyString -> all_chars is_digit s = true ->
  PyInt.literal s = PyInt.digits 0 true s.
Proof.
  intros Hne Hs. rewrite <- (digits_first s 0 Hne Hs).
  destruct s as [|c s]; [congruence|]. simpl in Hs.
  apply andb_prop in Hs as [Hc _].
  destruct (digit_not_special c Hc) as (_ & _ & _ & _ & Hminus & Hplus).
  unfold PyInt.literal. now rewrite Hminus, Hplus.
Qed.

(** The text of a positive integer with [k] digits stands for at least
    [10 ^ (k - 1)]. *)
Lemma str_pos_lower_bound p :
  10 ^ (PyInt.digit_count (PyInt.str (Z.pos p)) - 1) <= Z.pos p.
Proof.
  destruct (str_pos_head p) as (c & s & d & Hs & Hd & Hd1).
  pose proof (str_pos_all_digits p) as Hall.
  pose proof (literal_str (Z.pos p)) as Hl.
  rewrite literal_digits in Hl;
    [|rewrite Hs; discriminate|exact Hall].
  rewrite Hs in *. cbn [all_chars] in Hall.
  apply andb_prop in Hall as [Hc Hall].
  destruct (digit_not_special c Hc) as (_ & _ & _ & Hu & _).
  cbn [PyInt.digits PyInt.digit_count] in *. rewrite Hu, Hd in Hl. rewrite Hd.
  pose proof (digits_lower_bound s Hall (10 * 0 + d) (Z.pos p) ltac:(lia) Hl) as Hb.
  replace (1 + PyInt.digit_count s - 1) with (PyInt.digit_count s) by lia.
  assert (0 < 10 ^ PyInt.digit_count s)
    by (apply Z.pow_pos_nonneg; [lia|apply digit_count_nonneg]).
  nia.
Qed.

Lemma str_neg p : PyInt.str (Z.neg p) = String "-" (PyInt.str (Z.pos p)).
Proof. reflexivity. Qed.

Lemma digit_count_str_abs z :
  z <> 0 -> 10 ^ (PyInt.digit_count (PyInt.str z) - 1) <= Z.abs z.
Proof.
  destruct z as [|p|p]; [congruence|..]; intros _.
  - apply str_pos_lower_bound.
  - rewrite str_neg.
    change (PyInt.digit_count (String "-" (PyInt.str (Z.pos p))))
      with (PyInt.digit_count (PyInt.str (Z.pos p))).
    apply str_pos_lower_bound.
Qed.

(** An integer is within the limit exactly when its text has no more
    digits than the limit allows. *)
Lemma within_limit_digit_count z :
  within_limit z <-> PyInt.digit_count (PyInt.str z) <= PyInt.max_str_digits.
Proof.
  unfold within_limit. split.
  - intros Hz. destruct (Z.eq_dec z 0) as [->|Hnz]; [vm_compute; discriminate|].
    pose proof (digit_count_str_abs z Hnz) as Hlo.
    destruct (Z.le_gt_cases (PyInt.digit_count (PyInt.str z)) PyInt.max_str_digits)
      as [Hle|Hgt]; [exact Hle|].
    assert (Hpow : 10 ^ PyInt.max_str_digits <=
                   10 ^ (PyInt.digit_count (PyInt.str z) - 1))
      by (apply Z.pow_le_mono_r; lia).
    lia.
  - intros Hc. pose proof (literal_upper_bound _ _ (literal_str z)) as Hup.
    assert (Hpow : 10 ^ PyInt.digit_count (PyInt.str z) <= 10 ^ PyInt.max_str_digits)
      by (apply Z.pow_le_mono_r; [lia|exact Hc]).
    lia.
Qed.

(** [int(str(z))] is [z] when [z] is within the limit, and is refused
    otherwise. *)
Lemma int_str z : within_limit z -> PyInt.int (PyInt.str z) = Ok z.
Proof.
  intros Hz. apply within_limit_digit_count in Hz. rewrite int_str_limit.
  now rewrite (proj2 (Z.leb_le _ _) Hz).
Qed.

Lemma int_str_beyond z :
  ~ within_limit z -> PyInt.int (PyInt.str z) = Raise ValueError.
Proof.
  intros Hz. rewrite int_str_limit.
  destruct (Z.leb_spec (PyInt.digit_count (PyInt.str z)) PyInt.max_str_digits)
    as [Hle|Hgt]; [|reflexivity].
  now apply within_limit_digit_count in Hle.
Qed.

Lemma int_str_cases z :
  PyInt.int (PyInt.str z) = Ok z \/ PyInt.int (PyInt.str z) = Raise ValueError.
Proof. rewrite int_str_limit. destruct (_ <=? _); auto. Qed.

Lemma list_map_int_str zs :
  Forall within_limit zs ->
  ResultMonad.list_map PyInt.int (map PyInt.str zs) = Ok zs.
Proof.
  induction 1 as [|z zs Hz _ IH]; simpl; [reflexivity|].
  now rewrite (int_str z Hz), IH.
Qed.

Lemma list_map_int_str_cases zs :
  ResultMonad.list_map PyInt.int (map PyInt.str zs) = Ok zs \/
  ResultMonad.list_map PyInt.int (map PyInt.str zs) = Raise ValueError.
Proof.
  induction zs as [|z zs IH]; simpl; [now left|].
  destruct (int_str_cases z) as [-> | ->]; [|now right].
  destruct IH as [-> | ->]; [now left|now right].
Qed.

(** Every integer [int] returns is within the limit, so [str] writes it. *)
Lemma parsed_integers_print s z :
  PyInt.int s = Ok z ->
  within_limit z /\ PyInt.digit_count (PyInt.str z) <= PyInt.max_str_digits.
Proof.
  unfold PyInt.int. cbv zeta.
  destruct (PyInt.literal _) as [z'|] eqn:Hl; [|discriminate].
  destruct (Z.leb_spec (PyInt.digit_count (PyInt.rstrip (PyInt.lstrip s)))
              PyInt.max_str_digits) as [Hle|Hgt]; [|discriminate].
  intros [= ->].
  assert (Hz : within_limit z).
  { unfold within_limit. pose proof (literal_upper_bound _ _ Hl) as Hup.
    assert (Hpow : 10 ^ PyInt.digit_count (PyInt.rstrip (PyInt.lstrip s)) <=
                   10 ^ PyInt.max_str_digits)
      by (apply Z.pow_le_mono_r; [lia|exact Hle]).
    lia. }
  split; [exact Hz|]. now apply within_limit_digit_count.
Qed.

(** ** Lemmas on well-formed data lines *)

Lemma batch_field_lacks_comma tokens :
  Forall (fun t => lacks comma t = true) tokens ->
  lacks comma (batch_field tokens) = true.
Proof.
  intros Hall. unfold batch_field, lacks. rewrite !all_chars_app.
  fold (lacks comma (Str.join " " tokens)).
  now rewrite (lacks_join comma " " tokens eq_refl Hall).
Qed.

(** A line made of comma-free fields, field 2 an integer spelling and the
    last field a bracketed list of integer spellings, parses to the record
    these spell. *)
Lemma parse_line_fields policy misses field2 between tokens hits batchHits :
  Forall (fun t => lacks comma t = true) (policy :: misses :: field2 :: between) ->
  Forall (fun t => lacks comma t = true) tokens ->
  Forall (fun t => lacks space t = true) tokens ->
  tokens <> [] ->
  PyInt.int field2 = Ok hits ->
  ResultMonad.list_map PyInt.int tokens = Ok batchHits ->
  parse_line
    (Str.join "," (policy :: misses :: field2 :: between ++ [batch_field tokens]))
  = Ok (policy, hits, batchHits).
Proof.
  intros Hfields Hcomma Hspace Hne Hh Hb. unfold parse_line.
  rewrite (split_join comma).
  - unfold policy_of, hits_of, batchHits_of.
    rewrite (getitem_nat _ 0), (getitem_nat _ 2), (getitem_last _ EmptyString).
    cbn [nth_error ResultMonad.bind]. rewrite Hh. cbn [ResultMonad.bind].
    change (policy :: misses :: field2 :: between ++ [batch_field tokens])
      with ((policy :: misses :: field2 :: between) ++ [batch_field tokens])%list.
    rewrite last_last, slice_batch_field.
    change (Str.join " " tokens) with (Str.join (String space EmptyString) tokens).
    rewrite (split_join space tokens Hne Hspace), Hb.
    reflexivity.
  - discriminate.
  - change (policy :: misses :: field2 :: between ++ [batch_field tokens])
      with ((policy :: misses :: field2 :: between) ++ [batch_field tokens])%list.
    apply Forall_app. split; [exact Hfields|].
    constructor; [|constructor]. now apply batch_field_lacks_comma.
Qed.

(** The line of a record in decimal notation parses back to the record,
    when its integers are within the limit. *)
Lemma parse_record_line policy misses hits batchHits :
  lacks comma policy = true -> lacks comma misses = true ->
  batchHits <> [] ->
  within_limit hits -> Forall within_limit batchHits ->
  parse_line (record_line policy misses hits batchHits) =
    Ok (policy, hits, batchHits).
Proof.
  intros Hp Hm Hne Hh Hb. unfold record_line.
  apply (parse_line_fields policy misses (PyInt.str hits) []
           (map PyInt.str batchHits) hits batchHits).
  - repeat constructor; auto using str_lacks_comma.
  - apply Forall_map, Forall_forall. intros z _. apply str_lacks_comma.
  - apply Forall_map, Forall_forall. intros z _. apply str_lacks_space.
  - destruct batchHits; [congruence|discriminate].
  - now apply int_str.
  - now apply list_map_int_str.
Qed.

Lemma sum_negative zs :
  zs <> [] -> Forall (fun b => b < 0) zs -> Seq.sum zs < 0.
Proof.
  unfold Seq.sum. intros Hne Hall.
  assert (Hacc : forall acc, acc <= 0 -> zs <> [] -> fold_left Z.add zs acc < 0).
  { clear Hne. induction Hall as [|z zs Hz _ IH]; intros acc Hacc Hne; [congruence|].
    simpl. destruct zs as [|y ys]; [simpl; lia|].
    apply IH; [lia|discriminate]. }
  now apply Hacc.
Qed.

Lemma batchHits_of_nonempty line batchHits :
  batchHits_of line = Ok batchHits -> batchHits <> [].
Proof.
  unfold batchHits_of, ResultMonad.bind.
  destruct (Seq.getitem line (-1)) as [last|e]; [|discriminate].
  intros Hm Hnil. subst batchHits. apply list_map_ok_length in Hm.
  destruct (Str.split space (Str.slice last 1 (-2))) eqn:Hs; [|discriminate].
  now destruct (split_nonempty space (Str.slice last 1 (-2))).
Qed.

Lemma parse_line_batch line policy hits batchHits :
  parse_line line = Ok (policy, hits, batchHits) ->
  batchHits_of (Str.split comma line) = Ok batchHits.
Proof.
  unfold parse_line, ResultMonad.bind.
  destruct (policy_of _); [|discriminate].
  destruct (hits_of _); [|discriminate].
  destruct (batchHits_of _); [|discriminate].
  now intros [= _ _ ->].
Qed.

(** * The claims *)

(** C1.  A file made of one header line and the data line
    ["greedy,42,99,[3 5 7 84]"] followed by a line terminator: the batch
    hits are parsed as [3, 5, 7, 84], their sum 99 is the hits field, and
    the script prints exactly the line ["greedy, 99 = sum([3, 5, 7, 84])"]
    and ends normally.  This holds for every header text and for each of the
    three line terminators. *)
Theorem greedy_record_printed :
  forall header eol1 eol2,
    no_eol header = true -> is_eol eol1 -> is_eol eol2 ->
    parse_line (greedy_line ++ nl) = Ok ("greedy", 99, [3; 5; 7; 84]) /\
    Seq.sum [3; 5; 7; 84] = 99 /\
    run (header ++ eol1 ++ greedy_line ++ eol2) = (Ok tt, [greedy_summary ++ nl]).
Proof.
  intros header eol1 eol2 Hh He1 He2.
  split; [reflexivity|]. split; [reflexivity|].
  rewrite (run_header _ (header ++ nl) (file_lines (greedy_line ++ eol2))).
  - destruct He2 as [-> | [-> | ->]]; reflexivity.
  - apply file_lines_header; [exact Hh|].
    destruct He1 as [-> | [-> | ->]]; [now left|now right; left|].
    right; right. split; [reflexivity|]. intros rest'. discriminate.
Qed.

Lemma greedy_record_printed_witness :
  no_eol sample_header = true /\ is_eol nl /\ is_eol crlf /\
  run (sample_header ++ nl ++ greedy_line ++ crlf) = (Ok tt, [greedy_summary ++ nl]).
Proof.
  assert (H1 : no_eol sample_header = true) by reflexivity.
  assert (H2 : is_eol nl) by (left; reflexivity).
  assert (H3 : is_eol crlf) by (right; left; reflexivity).
  split; [exact H1|]. split; [exact H2|]. split; [exact H3|].
  exact (proj2 (proj2 (greedy_record_printed sample_header nl crlf H1 H2 H3))).
Defined.

(** C2 as stated fails: with two characters taken off each end of the last
    field of the line ["greedy,42,99,[3 5 7 84]\n"] the first token is empty
    and the conversion raises, while the script reads [3, 5, 7, 84]. *)
Lemma batchHits_two_two_differs :
  batchHits_of (Str.split comma (greedy_line ++ nl)) = Ok [3; 5; 7; 84] /\
  batchHits_two_two (Str.split comma (greedy_line ++ nl)) = Raise ValueError /\
  strip_ends 2 2 (last_field (greedy_line ++ nl)) = " 5 7 84" /\
  Str.slice (last_field (greedy_line ++ nl)) 1 (-2) = "3 5 7 84".
Proof. repeat split. Qed.

(** C2, amended.  For every data line, the batch hits are obtained from the
    line's last comma-separated field by taking off its first character and
    its last two characters, splitting the remainder on single spaces and
    converting each token to an integer (from left to right, the first
    token that is not an integer raising the error); the record a line
    parses to carries the integers so obtained. *)
Theorem batchHits_one_two :
  (forall line,
     batchHits_of (Str.split comma line) =
       ResultMonad.list_map PyInt.int
         (Str.split space (strip_ends 1 2 (last_field line)))) /\
  (forall line policy hits batchHits,
     parse_line line = Ok (policy, hits, batchHits) ->
     ResultMonad.list_map PyInt.int
       (Str.split space (strip_ends 1 2 (last_field line))) = Ok batchHits).
Proof.
  assert (Hexpr : forall line,
            batchHits_of (Str.split comma line) =
              ResultMonad.list_map PyInt.int
                (Str.split space (strip_ends 1 2 (last_field line)))).
  { intros line. rewrite batchHits_of_split. unfold batch_tokens.
    now rewrite slice_1_m2. }
  split; [exact Hexpr|].
  intros line policy hits batchHits Hp.
  rewrite <- Hexpr. exact (parse_line_batch _ _ _ _ Hp).
Qed.

Lemma batchHits_one_two_witness :
  parse_line (greedy_line ++ nl) = Ok ("greedy", 99, [3; 5; 7; 84]) /\
  strip_ends 1 2 (last_field (greedy_line ++ nl)) = "3 5 7 84" /\
  ResultMonad.list_map PyInt.int
    (Str.split space (strip_ends 1 2 (last_field (greedy_line ++ nl)))) =
    Ok [3; 5; 7; 84].
Proof.
  assert (Hp : parse_line (greedy_line ++ nl) = Ok ("greedy", 99, [3; 5; 7; 84]))
    by reflexivity.
  split; [exact Hp|]. split; [reflexivity|].
  exact (proj2 batchHits_one_two _ _ _ _ Hp).
Defined.

(** C3.  A record whose hits differ from the sum of its batch hits makes
    the loop body raise the assertion error and write nothing.  In a run,
    when the records before it are valid the script ends with that error
    and the output is the summaries of the records before it; in every
    case the run ends with an exception and writes at most the lines of the
    records before it.  Conversely, the loop body ends normally only on a
    record whose hits equal the sum, and every line a run writes is the
    summary of such a record. *)
Theorem sum_mismatch_aborts :
  (forall content header data k line policy hits batchHits,
     file_lines content = header :: data ->
     nth_error data k = Some line ->
     parse_line line = Ok (policy, hits, batchHits) ->
     hits <> Seq.sum batchHits ->
     (forall w, loop_body line w = (Raise AssertionError, w)) /\
     (exists e, fst (run content) = Raise e /\
                (length (snd (run content)) <= k)%nat) /\
     ((forall j l, (j < k)%nat -> nth_error data j = Some l -> valid_line l) ->
      run content = (Raise AssertionError, map printed (firstn k data)))) /\
  (forall line w w',
     loop_body line w = (Ok tt, w') ->
     exists policy hits batchHits,
       parse_line line = Ok (policy, hits, batchHits) /\
       hits = Seq.sum batchHits /\
       w' = emit [summary policy hits batchHits ++ nl] w) /\
  (forall content header data o,
     file_lines content = header :: data ->
     In o (snd (run content)) ->
     exists line policy hits batchHits,
       In line data /\ parse_line line = Ok (policy, hits, batchHits) /\
       hits = Seq.sum batchHits /\ o = summary policy hits batchHits ++ nl).
Proof.
  split; [|split].
  - intros content header data k line policy hits batchHits Hf Hk Hp Hne.
    pose proof (line_result_mismatch _ _ _ _ Hp Hne) as Hl.
    rewrite (run_header _ _ _ Hf). split; [|split].
    + intros w. now rewrite loop_body_line_result, Hl.
    + exact (scan_failure_bound data k line _ Hk Hl).
    + intros Hpre. exact (scan_first_failure data k line _ Hk Hl Hpre).
  - intros line w w'. rewrite loop_body_line_result.
    destruct (line_result line) as [s|e] eqn:Hl; [|discriminate].
    intros [= <-]. apply line_result_ok in Hl as (p & h & b & Hp & Hh & ->).
    now exists p, h, b.
  - intros content header data o Hf. rewrite (run_header _ _ _ Hf).
    apply scan_out_valid.
Qed.

Lemma sum_mismatch_aborts_witness :
  file_lines greedy_then_mismatch =
    [sample_header ++ nl; greedy_line ++ nl; lru_line ++ nl] /\
  parse_line (lru_line ++ nl) = Ok ("lru", 10, [2; 2; 2]) /\
  10 <> Seq.sum [2; 2; 2] /\
  run greedy_then_mismatch = (Raise AssertionError, [greedy_summary ++ nl]).
Proof.
  assert (Hf : file_lines greedy_then_mismatch =
               (sample_header ++ nl) :: [greedy_line ++ nl; lru_line ++ nl])
    by reflexivity.
  assert (Hk : nth_error [greedy_line ++ nl; lru_line ++ nl] 1 =
               Some (lru_line ++ nl)) by reflexivity.
  assert (Hp : parse_line (lru_line ++ nl) = Ok ("lru", 10, [2; 2; 2]))
    by reflexivity.
  assert (Hne : 10 <> Seq.sum [2; 2; 2]) by (vm_compute; discriminate).
  split; [exact Hf|]. split; [exact Hp|]. split; [exact Hne|].
  refine (proj2 (proj2 (proj1 sum_mismatch_aborts _ _ _ _ _ _ _ _ Hf Hk Hp Hne)) _).
  intros j l Hj Hl. destruct j as [|j]; [|lia].
  injection Hl as <-. exists "greedy", 99, [3; 5; 7; 84]. split; reflexivity.
Defined.

(** C4.  The first line of the file is dropped unread: the script does on
    the file what the loop does on the lines after the first, so the outcome
    and the output are the same whatever the header says, and the first
    line written, if any, is the summary of the second line of the file. *)
Theorem header_never_parsed :
  forall content header data,
    file_lines content = header :: data ->
    (forall w, files w output_file = Text content -> main w = for_lines data w) /\
    (forall content' header',
       file_lines content' = header' :: data -> run content' = run content) /\
    (forall o out,
       snd (run content) = o :: out ->
       exists line2 data' policy hits batchHits,
         data = line2 :: data' /\
         parse_line line2 = Ok (policy, hits, batchHits) /\
         hits = Seq.sum batchHits /\
         o = summary policy hits batchHits ++ nl).
Proof.
  intros content header data Hf. split; [|split].
  - intros w Hw. rewrite main_scan, Hw, Hf. symmetry. apply for_lines_scan.
  - intros content' header' Hf'.
    now rewrite (run_header _ _ _ Hf), (run_header _ _ _ Hf').
  - intros o out. rewrite (run_header _ _ _ Hf).
    destruct data as [|line2 data']; [discriminate|]. simpl.
    destruct (line_result line2) as [s|e] eqn:Hl; [|discriminate].
    destruct (scan data') as [r outs]. simpl. intros [= <- _].
    apply line_result_ok in Hl as (p & h & b & Hp & Hh & ->).
    now exists line2, data', p, h, b.
Qed.

Lemma header_never_parsed_witness :
  file_lines (sample_header ++ nl ++ greedy_line ++ nl) =
    [sample_header ++ nl; greedy_line ++ nl] /\
  file_lines ("bad" ++ nl ++ greedy_line ++ nl) = ["bad" ++ nl; greedy_line ++ nl] /\
  run ("bad" ++ nl ++ greedy_line ++ nl) = run (sample_header ++ nl ++ greedy_line ++ nl).
Proof.
  assert (H1 : file_lines (sample_header ++ nl ++ greedy_line ++ nl) =
               (sample_header ++ nl) :: [greedy_line ++ nl]) by reflexivity.
  assert (H2 : file_lines ("bad" ++ nl ++ greedy_line ++ nl) =
               ("bad" ++ nl) :: [greedy_line ++ nl]) by reflexivity.
  split; [exact H1|]. split; [exact H2|].
  exact (proj1 (proj2 (header_never_parsed _ _ _ H1)) _ _ H2).
Defined.

(** C5.  When ["output.csv"] is missing or cannot be read, the script ends
    with a file-access error and leaves the world as it found it: nothing is
    written to standard output. *)
Theorem missing_file_aborts :
  forall w,
    (forall content, files w output_file <> Text content) ->
    exists e, is_file_exn e /\ main w = (Raise e, w) /\
              (files w output_file = Missing -> e = FileNotFoundError) /\
              (files w output_file = Unreadable -> e = PermissionError).
Proof.
  intros w Hno. rewrite main_scan.
  destruct (files w output_file) as [| |content] eqn:Hf.
  - exists FileNotFoundError. repeat split; [now left|discriminate].
  - exists PermissionError. repeat split; [now right|discriminate].
  - now destruct (Hno content).
Qed.

Lemma missing_file_aborts_witness :
  (forall content, files (world_of Missing) output_file <> Text content) /\
  exists e, is_file_exn e /\ main (world_of Missing) = (Raise e, world_of Missing) /\
            (files (world_of Missing) output_file = Missing -> e = FileNotFoundError) /\
            (files (world_of Missing) output_file = Unreadable -> e = PermissionError).
Proof.
  assert (H : forall content, files (world_of Missing) output_file <> Text content)
    by (intros content; discriminate).
  split; [exact H|]. exact (missing_file_aborts (world_of Missing) H).
Defined.

(** C6 as stated fails: in the file below the second data line (["bad"]) is
    the first line with a format error, the data line before it is well
    formed but breaks the sum, and the run ends with the assertion error of
    that earlier line, not with a format error at the second. *)
Lemma assertion_precedes_format_error :
  file_lines mismatch_then_short =
    [sample_header ++ nl; lru_line ++ nl; "bad" ++ nl] /\
  format_error (lru_line ++ nl) = false /\
  format_error ("bad" ++ nl) = true /\
  run mismatch_then_short = (Raise AssertionError, []) /\
  ~ is_format_exn AssertionError.
Proof.
  repeat split. intros [H|H]; discriminate H.
Qed.

(** C6, amended.  When data line [k] has a format error (fewer than three
    comma-separated fields, or a token that is not an integer where one is
    converted) and every data line before it holds a valid record, the run
    ends with a format error raised at line [k] (the index error for too few
    fields, the value error otherwise), and the output is exactly the
    summaries of the [k] records before it. *)
Theorem format_error_aborts :
  forall content header data k line,
    file_lines content = header :: data ->
    nth_error data k = Some line ->
    format_error line = true ->
    (forall j l, (j < k)%nat -> nth_error data j = Some l -> valid_line l) ->
    exists e,
      is_format_exn e /\
      (forall w, loop_body line w = (Raise e, w)) /\
      run content = (Raise e, map printed (firstn k data)) /\
      length (snd (run content)) = k /\
      (e = IndexError <-> too_few_fields line = true) /\
      (forall j l, (j < k)%nat -> nth_error data j = Some l ->
                   format_error l = false).
Proof.
  intros content header data k line Hf Hk Hfe Hpre.
  destruct (proj1 (parse_line_format_error line) Hfe) as [e Hp].
  pose proof (line_result_parse_error _ _ Hp) as Hl.
  assert (Hrun : run content = (Raise e, map printed (firstn k data))).
  { rewrite (run_header _ _ _ Hf).
    exact (scan_first_failure data k line e Hk Hl Hpre). }
  exists e. split; [|split; [|split; [|split; [|split]]]];
    [| | | | |intros j l0 Hj Hj0; exact (valid_line_no_format_error l0 (Hpre j l0 Hj Hj0))].
  - apply parse_line_raise in Hp as [[-> _]|[-> _]]; [now left|now right].
  - intros w. now rewrite loop_body_line_result, Hl.
  - exact Hrun.
  - rewrite Hrun. simpl. rewrite length_map, length_firstn.
    assert (k < length data)%nat by (apply nth_error_Some; congruence). lia.
  - apply parse_line_raise in Hp as [[-> ->]|(-> & -> & _)];
      split; intros; congruence.
Qed.

Lemma format_error_aborts_witness :
  file_lines greedy_then_short =
    [sample_header ++ nl; greedy_line ++ nl; "bad" ++ nl] /\
  format_error ("bad" ++ nl) = true /\
  valid_line (greedy_line ++ nl) /\
  exists e,
    is_format_exn e /\
    (forall w, loop_body ("bad" ++ nl) w = (Raise e, w)) /\
    run greedy_then_short = (Raise e, [greedy_summary ++ nl]) /\
    length (snd (run greedy_then_short)) = 1%nat /\
    (e = IndexError <-> too_few_fields ("bad" ++ nl) = true) /\
    (forall j l, (j < 1)%nat ->
                 nth_error [greedy_line ++ nl; "bad" ++ nl] j = Some l ->
                 format_error l = false).
Proof.
  assert (Hf : file_lines greedy_then_short =
               (sample_header ++ nl) :: [greedy_line ++ nl; "bad" ++ nl])
    by reflexivity.
  assert (Hk : nth_error [greedy_line ++ nl; "bad" ++ nl] 1 = Some ("bad" ++ nl))
    by reflexivity.
  assert (Hfe : format_error ("bad" ++ nl) = true) by reflexivity.
  assert (Hv : valid_line (greedy_line ++ nl))
    by (exists "greedy", 99, [3; 5; 7; 84]; split; reflexivity).
  split; [exact Hf|]. split; [exact Hfe|]. split; [exact Hv|].
  refine (format_error_aborts _ _ _ 1%nat _ Hf Hk Hfe _).
  intros j l Hj Hl. destruct j as [|j]; [|lia].
  injection Hl as <-. exact Hv.
Defined.

(** C7.  The outcome of the script and what it writes are a function of the
    state of ["output.csv"] alone, and the script leaves every file as it
    found it.  So a second run over the unchanged file ends the same way
    and writes the same text as the first. *)
Theorem runs_repeat :
  (forall w w',
     files w output_file = files w' output_file ->
     fst (main w) = fst (main w') /\
     exists out,
       stdout (snd (main w)) = (stdout w ++ out)%list /\
       stdout (snd (main w')) = (stdout w' ++ out)%list) /\
  (forall w, files (snd (main w)) = files w) /\
  (forall w,
     fst (main (snd (main w))) = fst (main w) /\
     exists out,
       stdout (snd (main w)) = (stdout w ++ out)%list /\
       stdout (snd (main (snd (main w)))) = (stdout w ++ out ++ out)%list).
Proof.
  split; [|split].
  - intros w w' Hsame. rewrite (main_outcome w), (main_outcome w'), Hsame.
    split; [reflexivity|].
    now exists (snd (outcome_of (files w' output_file))).
  - intros w. now rewrite main_outcome.
  - intros w. rewrite (main_outcome (snd (main w))).
    rewrite (main_outcome w). simpl. split; [reflexivity|].
    exists (snd (outcome_of (files w output_file))).
    split; [reflexivity|]. now rewrite app_assoc.
Qed.

Lemma runs_repeat_witness :
  files (world_of (Text greedy_then_mismatch)) output_file =
    files (emit ["earlier output"] (world_of (Text greedy_then_mismatch))) output_file /\
  fst (main (world_of (Text greedy_then_mismatch))) =
    fst (main (emit ["earlier output"] (world_of (Text greedy_then_mismatch)))).
Proof.
  assert (H : files (world_of (Text greedy_then_mismatch)) output_file =
              files (emit ["earlier output"] (world_of (Text greedy_then_mismatch)))
                output_file) by reflexivity.
  split; [exact H|]. exact (proj1 (proj1 runs_repeat _ _ H)).
Defined.

(** C8.  On a file with no line at all, which is the empty file, skipping
    the header raises [StopIteration]: the script ends with that exception
    and writes nothing, instead of ending normally. *)
Theorem empty_file_aborts :
  forall w content,
    files w output_file = Text content ->
    file_lines content = [] ->
    content = EmptyString /\
    main w = (Raise StopIteration, w) /\
    run content = (Raise StopIteration, []).
Proof.
  intros w content Hw Hl. split; [now apply file_lines_nil|]. split.
  - now rewrite main_scan, Hw, Hl.
  - now rewrite run_scan, Hl.
Qed.

Lemma empty_file_aborts_witness :
  files (world_of (Text EmptyString)) output_file = Text EmptyString /\
  file_lines EmptyString = [] /\
  main (world_of (Text EmptyString)) =
    (Raise StopIteration, world_of (Text EmptyString)).
Proof.
  assert (H1 : files (world_of (Text EmptyString)) output_file = Text EmptyString)
    by reflexivity.
  assert (H2 : file_lines EmptyString = []) by reflexivity.
  split; [exact H1|]. split; [exact H2|].
  exact (proj1 (proj2 (empty_file_aborts _ _ H1 H2))).
Defined.

(** C9 as stated fails: the data line ["[]"] has a last field that is empty
    once sliced, and the run ends with the index error raised at field 2,
    not with an integer-parse error. *)
Lemma lone_brackets_index_error :
  file_lines lone_brackets = [sample_header ++ nl; "[]" ++ nl] /\
  Str.slice (last_field ("[]" ++ nl)) 1 (-2) = EmptyString /\
  run lone_brackets = (Raise IndexError, []).
Proof. repeat split. Qed.

(** C9, amended.  No data line parses to a record with an empty batch-hits
    sequence.  A last field that is empty once sliced splits into the single
    empty token, which is not an integer.  For every data line whose sliced
    last field has no integer token, the batch-hits expression raises the
    integer-parse error; the loop body then raises an integer-parse error
    when the line has at least three comma-separated fields, and the index
    error of field 2 when it has fewer, and in both cases writes nothing. *)
Theorem empty_batch_unrepresentable :
  (forall line policy hits batchHits,
     parse_line line = Ok (policy, hits, batchHits) -> batchHits <> []) /\
  (forall line,
     Str.slice (last_field line) 1 (-2) = EmptyString ->
     batch_tokens line = [EmptyString] /\ is_int EmptyString = false) /\
  (forall line,
     (forall t, In t (batch_tokens line) -> is_int t = false) ->
     batchHits_of (Str.split comma line) = Raise ValueError /\
     (too_few_fields line = false ->
      forall w, loop_body line w = (Raise ValueError, w)) /\
     (too_few_fields line = true ->
      forall w, loop_body line w = (Raise IndexError, w))).
Proof.
  split; [|split].
  - intros line policy hits batchHits Hp.
    exact (batchHits_of_nonempty _ _ (parse_line_batch _ _ _ _ Hp)).
  - intros line Hs. split; [|reflexivity].
    unfold batch_tokens. now rewrite Hs.
  - intros line Hnone.
    assert (Hm : ResultMonad.list_map PyInt.int (batch_tokens line) = Raise ValueError).
    { unfold batch_tokens in *.
      destruct (Str.split space (Str.slice (last_field line) 1 (-2)))
        as [|t ts] eqn:Hs; [now destruct (split_nonempty space _ Hs)|].
      pose proof (Hnone t (or_introl eq_refl)) as Ht. unfold is_int in Ht.
      simpl. destruct (PyInt.int t) as [z|e] eqn:Hi; [discriminate|].
      now rewrite (int_raise _ _ Hi). }
    split; [now rewrite batchHits_of_split|]. split.
    + intros Hf w. rewrite loop_body_line_result.
      assert (Hp : parse_line line = Raise ValueError).
      { rewrite (parse_line_enough_fields line Hf), Hm. unfold ResultMonad.bind.
        destruct (PyInt.int _) as [h|e] eqn:Hh; [reflexivity|].
        now rewrite (int_raise _ _ Hh). }
      now rewrite (line_result_parse_error _ _ Hp).
    + intros Hf w. rewrite loop_body_line_result.
      now rewrite (line_result_parse_error _ _ (parse_line_few_fields line Hf)).
Qed.

Lemma empty_batch_unrepresentable_witness :
  batch_tokens ("lru,0,0,[]" ++ nl) = [EmptyString] /\
  too_few_fields ("lru,0,0,[]" ++ nl) = false /\
  loop_body ("lru,0,0,[]" ++ nl) (world_of Missing) =
    (Raise ValueError, world_of Missing).
Proof.
  assert (Hs : Str.slice (last_field ("lru,0,0,[]" ++ nl)) 1 (-2) = EmptyString)
    by reflexivity.
  assert (Ht : batch_tokens ("lru,0,0,[]" ++ nl) = [EmptyString])
    by exact (proj1 (proj1 (proj2 empty_batch_unrepresentable) _ Hs)).
  assert (Hnone : forall t, In t (batch_tokens ("lru,0,0,[]" ++ nl)) -> is_int t = false).
  { rewrite Ht. intros t [<-|[]]. reflexivity. }
  assert (Hf : too_few_fields ("lru,0,0,[]" ++ nl) = false) by reflexivity.
  split; [exact Ht|]. split; [exact Hf|].
  exact (proj1 (proj2 (proj2 (proj2 empty_batch_unrepresentable) _ Hnone)) Hf _).
Defined.

(** C10.  No sign check is made: a data line whose hits and batch hits are
    negative integers, the hits being the sum of the batch hits, passes the
    assertion and its summary is printed.  Such lines exist for every
    choice of negative batch hits that [int] converts: when the batch hits
    and their sum are within the interpreter's limit on digits, the line
    that spells them in decimal notation is accepted and printed with its
    negative sum. *)
Theorem negative_values_accepted :
  (forall line policy hits batchHits w,
     parse_line line = Ok (policy, hits, batchHits) ->
     hits < 0 ->
     Forall (fun b => b < 0) batchHits ->
     hits = Seq.sum batchHits ->
     loop_body line w = (Ok tt, emit [summary policy hits batchHits ++ nl] w)) /\
  (forall policy misses batchHits w,
     lacks comma policy = true -> lacks comma misses = true ->
     batchHits <> [] ->
     Forall (fun b => b < 0) batchHits ->
     Forall within_limit batchHits ->
     within_limit (Seq.sum batchHits) ->
     Seq.sum batchHits < 0 /\
     loop_body (record_line policy misses (Seq.sum batchHits) batchHits) w =
       (Ok tt, emit [summary policy (Seq.sum batchHits) batchHits ++ nl] w)).
Proof.
  assert (Hgen : forall line policy hits batchHits w,
            parse_line line = Ok (policy, hits, batchHits) ->
            hits = Seq.sum batchHits ->
            loop_body line w = (Ok tt, emit [summary policy hits batchHits ++ nl] w)).
  { intros line policy hits batchHits w Hp Hs. rewrite loop_body_line_result.
    assert (Hl : line_result line = Ok (summary policy hits batchHits))
      by (apply line_result_ok; now exists policy, hits, batchHits).
    now rewrite Hl. }
  split.
  - intros line policy hits batchHits w Hp _ _ Hs. now apply Hgen.
  - intros policy misses batchHits w Hp Hm Hne Hneg Hlim Hsum.
    split; [now apply sum_negative|].
    apply Hgen; [now apply parse_record_line|reflexivity].
Qed.

Lemma negative_values_accepted_witness :
  record_line "lru" "0" (-6) [-2; -2; -2] = negative_line ++ nl /\
  parse_line (negative_line ++ nl) = Ok ("lru", -6, [-2; -2; -2]) /\
  -6 < 0 /\
  Forall (fun b => b < 0) [-2; -2; -2] /\
  -6 = Seq.sum [-2; -2; -2] /\
  loop_body (negative_line ++ nl) (world_of Missing) =
    (Ok tt, emit [negative_summary ++ nl] (world_of Missing)).
Proof.
  assert (Hp : parse_line (negative_line ++ nl) = Ok ("lru", -6, [-2; -2; -2]))
    by reflexivity.
  assert (Hh : -6 < 0) by reflexivity.
  assert (Hb : Forall (fun b => b < 0) [-2; -2; -2])
    by (repeat constructor).
  assert (Hs : -6 = Seq.sum [-2; -2; -2]) by reflexivity.
  split; [reflexivity|].
  split; [exact Hp|]. split; [exact Hh|]. split; [exact Hb|]. split; [exact Hs|].
  exact (proj1 negative_values_accepted _ _ _ _ (world_of Missing) Hp Hh Hb Hs).
Defined.

(** * Further properties of the script *)

(** ** Outcomes of the loop *)

Lemma line_result_raise line e :
  line_result line = Raise e ->
  e = IndexError \/ e = ValueError \/ e = AssertionError.
Proof.
  unfold line_result, ResultMonad.bind, assert.
  destruct (parse_line line) as [[[p h] b]|e0] eqn:Hp.
  - destruct (h =? Seq.sum b); [discriminate|]. intros [= <-]. auto.
  - intros [= <-]. apply parse_line_raise in Hp as [[-> _]|[-> _]]; auto.
Qed.


Lemma scan_ok_valid f : fst (scan f) = Ok tt -> Forall valid_line f.
Proof.
  induction f as [|line f IH]; simpl; [constructor|].
  destruct (line_result line) as [s|e] eqn:Hl; [|discriminate].
  destruct (scan f) as [r out]; simpl in *. intros Hr. constructor.
  - apply valid_line_iff. now exists s.
  - now apply IH.
Qed.

Lemma scan_raise f e :
  fst (scan f) = Raise e ->
  exists line,
    nth_error f (length (snd (scan f))) = Some line /\ line_result line = Raise e.
Proof.
  induction f as [|l0 f IH]; simpl; [discriminate|].
  destruct (line_result l0) as [s|e0] eqn:Hl.
  - destruct (scan f) as [r out]; simpl in *. exact IH.
  - simpl. intros [= <-]. now exists l0.
Qed.



Lemma scan_result f : forall r, fst (scan f) = Ok r -> r = tt.
Proof. intros []. reflexivity. Qed.

(** X1.  A run ends normally exactly when the file has a first line and
    every line after it holds a valid record; the output is then the
    summaries of all these lines, one per line, in the order of the file.
    In particular a file with a header and nothing else passes and prints
    nothing. *)
Theorem run_ok_iff_all_valid :
  forall content,
    (fst (run content) = Ok tt <->
     exists header data,
       file_lines content = header :: data /\ Forall valid_line data) /\
    (forall header data,
       file_lines content = header :: data ->
       Forall valid_line data ->
       run content = (Ok tt, map printed data) /\
       length (snd (run content)) = length data).
Proof.
  intros content.
  assert (Hall : forall header data,
             file_lines content = header :: data ->
             Forall valid_line data ->
             run content = (Ok tt, map printed data)).
  { intros header data Hf Hv. rewrite (run_header _ _ _ Hf).
    apply scan_all_valid. now apply Forall_forall. }
  split; [split|].
  - rewrite run_scan. destruct (file_lines content) as [|header data];
      [discriminate|].
    intros Hok. exists header, data. split; [reflexivity|].
    now apply scan_ok_valid.
  - intros (header & data & Hf & Hv). now rewrite (Hall header data Hf Hv).
  - intros header data Hf Hv. rewrite (Hall header data Hf Hv).
    split; [reflexivity|]. simpl. apply length_map.
Qed.

Lemma run_ok_iff_all_valid_witness :
  file_lines (sample_header ++ nl ++ greedy_line ++ nl ++ negative_line ++ nl) =
    [sample_header ++ nl; greedy_line ++ nl; negative_line ++ nl] /\
  Forall valid_line [greedy_line ++ nl; negative_line ++ nl] /\
  run (sample_header ++ nl ++ greedy_line ++ nl ++ negative_line ++ nl) =
    (Ok tt, [greedy_summary ++ nl; negative_summary ++ nl]).
Proof.
  assert (Hf : file_lines (sample_header ++ nl ++ greedy_line ++ nl ++
                           negative_line ++ nl) =
               (sample_header ++ nl) :: [greedy_line ++ nl; negative_line ++ nl])
    by reflexivity.
  assert (Hv : Forall valid_line [greedy_line ++ nl; negative_line ++ nl]).
  { constructor; [|constructor; [|constructor]].
    - exists "greedy", 99, [3; 5; 7; 84]. split; reflexivity.
    - exists "lru", (-6), [-2; -2; -2]. split; reflexivity. }
  split; [exact Hf|]. split; [exact Hv|].
  exact (proj1 (proj2 (run_ok_iff_all_valid _) _ _ Hf Hv)).
Defined.



(** X3.  Each exception a run can end with names its cause.  The file
    errors come from [open] alone: [FileNotFoundError] exactly when the
    file is missing, [PermissionError] exactly when it may not be read.
    [StopIteration] is raised exactly on the empty file, by the skipping
    of the header and never by the loop.  On any other file the only
    exceptions are the three of the loop body. *)
Theorem exceptions_name_their_cause :
  forall w,
    (fst (main w) = Raise FileNotFoundError <-> files w output_file = Missing) /\
    (fst (main w) = Raise PermissionError <-> files w output_file = Unreadable) /\
    (fst (main w) = Raise StopIteration <-> files w output_file = Text EmptyString) /\
    (forall content e,
       files w output_file = Text content ->
       content <> EmptyString ->
       fst (main w) = Raise e ->
       e = IndexError \/ e = ValueError \/ e = AssertionError).
Proof.
  intros w. rewrite main_scan.
  assert (Hloop : forall f e, fst (scan f) = Raise e ->
                    e = IndexError \/ e = ValueError \/ e = AssertionError).
  { intros f e He. destruct (scan_raise f e He) as (line & _ & Hl).
    exact (line_result_raise _ _ Hl). }
  destruct (files w output_file) as [| |content] eqn:Hw.
  - repeat split; intros; try discriminate; reflexivity.
  - repeat split; intros; try discriminate; reflexivity.
  - destruct (file_lines content) as [|header f] eqn:Hf.
    + apply file_lines_nil in Hf. subst content.
      repeat split; intros; try discriminate; try reflexivity; congruence.
    + assert (Hne : content <> EmptyString)
        by (intros ->; discriminate Hf).
      simpl.
      repeat split; intros; try discriminate; try congruence;
        match goal with
        | H : fst (scan _) = Raise _ |- _ =>
            destruct (Hloop _ _ H) as [H'|[H'|H']]; try discriminate H'; auto
        end.
Qed.

Lemma exceptions_name_their_cause_witness :
  files (world_of (Text lone_brackets)) output_file = Text lone_brackets /\
  lone_brackets <> EmptyString /\
  fst (main (world_of (Text lone_brackets))) = Raise IndexError /\
  (IndexError = IndexError \/ IndexError = ValueError \/ IndexError = AssertionError).
Proof.
  assert (Hw : files (world_of (Text lone_brackets)) output_file = Text lone_brackets)
    by reflexivity.
  assert (Hne : lone_brackets <> EmptyString) by discriminate.
  assert (He : fst (main (world_of (Text lone_brackets))) = Raise IndexError)
    by reflexivity.
  split; [exact Hw|]. split; [exact Hne|]. split; [exact He|].
  exact (proj2 (proj2 (proj2 (exceptions_name_their_cause _))) _ _ Hw Hne He).
Defined.

(** X4.  The loop body does exactly one of four things on a line, and which
    one is decided in this order: with fewer than three comma-separated
    fields it raises the index error; otherwise, with a token that is not
    an integer where one is converted, the value error; otherwise, with
    hits that differ from the sum, the assertion error; otherwise it prints
    the summary.  When it raises, the world is as before; when it prints,
    the files are as before and exactly one text is added to the output. *)
Theorem loop_body_cases :
  forall line w,
    (too_few_fields line = true /\ loop_body line w = (Raise IndexError, w)) \/
    (too_few_fields line = false /\ bad_token line = true /\
     loop_body line w = (Raise ValueError, w)) \/
    (exists policy hits batchHits,
       parse_line line = Ok (policy, hits, batchHits) /\
       format_error line = false /\
       hits <> Seq.sum batchHits /\
       loop_body line w = (Raise AssertionError, w)) \/
    (exists policy hits batchHits,
       parse_line line = Ok (policy, hits, batchHits) /\
       format_error line = false /\
       hits = Seq.sum batchHits /\
       loop_body line w = (Ok tt, emit [summary policy hits batchHits ++ nl] w)).
Proof.
  intros line w. rewrite loop_body_line_result.
  destruct (parse_line line) as [[[p h] b]|e] eqn:Hp.
  - assert (Hfe : format_error line = false).
    { destruct (format_error line) eqn:Hfe; [|reflexivity].
      apply parse_line_format_error in Hfe as [e He]. congruence. }
    destruct (Z.eq_dec h (Seq.sum b)) as [Heq|Hne].
    + right; right; right. exists p, h, b.
      assert (Hl : line_result line = Ok (summary p h b))
        by (apply line_result_ok; now exists p, h, b).
      now rewrite Hl.
    + right; right; left. exists p, h, b.
      now rewrite (line_result_mismatch _ _ _ _ Hp Hne).
  - rewrite (line_result_parse_error _ _ Hp).
    apply parse_line_raise in Hp as [[-> Hf]|(-> & Hf & Hb)]; auto.
Qed.

(** ** Lines the script accepts *)

Lemma loop_body_parsed line policy hits batchHits w :
  parse_line line = Ok (policy, hits, batchHits) ->
  (hits = Seq.sum batchHits ->
   loop_body line w = (Ok tt, emit [summary policy hits batchHits ++ nl] w)) /\
  (hits <> Seq.sum batchHits -> loop_body line w = (Raise AssertionError, w)).
Proof.
  intros Hp. rewrite loop_body_line_result. split.
  - intros Hs.
    assert (Hl : line_result line = Ok (summary policy hits batchHits))
      by (apply line_result_ok; now exists policy, hits, batchHits).
    now rewrite Hl.
  - intros Hne. now rewrite (line_result_mismatch _ _ _ _ Hp Hne).
Qed.

(** X5.  The script reads a line by position only.  A line of comma-free
    fields whose field 2 spells an integer and whose last field holds,
    between ["["] and ["]\n"], space-separated spellings of integers parses
    to the policy of field 0, the integer of field 2 and the integers of
    the last field, whatever field 1 and the fields between field 2 and the
    last hold, and whichever spelling [int] accepts is used (a sign,
    leading zeros, underscores, blanks around field 2).  The line is then
    printed or refused on the sum alone. *)
Theorem spelled_line_accepted :
  forall policy misses field2 between tokens hits batchHits w,
    Forall (fun t => lacks comma t = true) (policy :: misses :: field2 :: between) ->
    Forall (fun t => lacks comma t = true) tokens ->
    Forall (fun t => lacks space t = true) tokens ->
    tokens <> [] ->
    PyInt.int field2 = Ok hits ->
    ResultMonad.list_map PyInt.int tokens = Ok batchHits ->
    parse_line
      (Str.join "," (policy :: misses :: field2 :: between ++ [batch_field tokens]))
    = Ok (policy, hits, batchHits) /\
    (hits = Seq.sum batchHits ->
     loop_body
       (Str.join "," (policy :: misses :: field2 :: between ++ [batch_field tokens])) w
     = (Ok tt, emit [summary policy hits batchHits ++ nl] w)) /\
    (hits <> Seq.sum batchHits ->
     loop_body
       (Str.join "," (policy :: misses :: field2 :: between ++ [batch_field tokens])) w
     = (Raise AssertionError, w)).
Proof.
  intros policy misses field2 between tokens hits batchHits w
    Hfields Hcomma Hspace Hne Hh Hb.
  pose proof (parse_line_fields policy misses field2 between tokens hits batchHits
                Hfields Hcomma Hspace Hne Hh Hb) as Hp.
  split; [exact Hp|]. exact (loop_body_parsed _ _ _ _ w Hp).
Qed.

Lemma spelled_line_accepted_witness :
  Str.join "," ("lfu" :: "x y" :: " +1_0 " :: ["junk"; ""] ++ [batch_field ["007"; "+3"]])
  = "lfu,x y, +1_0 ,junk,,[007 +3]" ++ nl /\
  PyInt.int " +1_0 " = Ok 10 /\
  ResultMonad.list_map PyInt.int ["007"; "+3"] = Ok [7; 3] /\
  loop_body
    (Str.join "," ("lfu" :: "x y" :: " +1_0 " :: ["junk"; ""] ++ [batch_field ["007"; "+3"]]))
    (world_of Missing)
  = (Ok tt, emit ["lfu, 10 = sum([7, 3])" ++ nl] (world_of Missing)).
Proof.
  assert (H1 : Forall (fun t => lacks comma t = true)
                 ("lfu" :: "x y" :: " +1_0 " :: ["junk"; ""]))
    by (repeat constructor).
  assert (H2 : Forall (fun t => lacks comma t = true) ["007"; "+3"])
    by (repeat constructor).
  assert (H3 : Forall (fun t => lacks space t = true) ["007"; "+3"])
    by (repeat constructor).
  assert (H4 : ["007"; "+3"] <> []) by discriminate.
  assert (H5 : PyInt.int " +1_0 " = Ok 10) by reflexivity.
  assert (H6 : ResultMonad.list_map PyInt.int ["007"; "+3"] = Ok [7; 3])
    by reflexivity.
  split; [reflexivity|]. split; [exact H5|]. split; [exact H6|].
  exact (proj1 (proj2 (spelled_line_accepted "lfu" "x y" " +1_0 " ["junk"; ""]
                         ["007"; "+3"] 10 [7; 3] (world_of Missing)
                         H1 H2 H3 H4 H5 H6)) eq_refl).
Defined.

(** ** The index error *)

Lemma split_length sep s :
  length (Str.split sep s) = S (count_char sep s).
Proof.
  induction s as [|c s IH]; simpl; [reflexivity|].
  destruct (Ascii.eqb c sep); simpl; [now rewrite IH|].
  destruct (Str.split sep s) as [|piece pieces] eqn:Hs;
    [now destruct (split_nonempty sep s)|].
  simpl in *. exact IH.
Qed.

Lemma too_few_fields_commas line :
  too_few_fields line = true <-> (count_char comma line < 2)%nat.
Proof.
  unfold too_few_fields, field_count. rewrite split_length, Nat.ltb_lt. lia.
Qed.

Lemma line_result_index_error line :
  line_result line = Raise IndexError <-> too_few_fields line = true.
Proof.
  split.
  - unfold line_result, ResultMonad.bind, assert.
    destruct (parse_line line) as [[[p h] b]|e] eqn:Hp.
    + destruct (h =? Seq.sum b); discriminate.
    + intros [= ->]. apply parse_line_raise in Hp as [[_ Hf]|[Hv _]];
        [exact Hf|discriminate Hv].
  - intros Hf. apply line_result_parse_error. now apply parse_line_few_fields.
Qed.

(** X6.  The loop body raises the index error exactly on the lines with
    fewer than two commas, whatever else they hold; a blank line, or a line
    with one comma, stops the run this way, and no line with two commas or
    more ever does. *)
Theorem index_error_iff_few_commas :
  forall line w,
    loop_body line w = (Raise IndexError, w) <-> (count_char comma line < 2)%nat.
Proof.
  intros line w. rewrite <- too_few_fields_commas, <- line_result_index_error.
  rewrite loop_body_line_result. split.
  - destruct (line_result line) as [s|e]; [discriminate|]. now intros [= ->].
  - now intros ->.
Qed.

(** ** Decimal notation and line endings *)

(** X7.  What the summary writes for an integer is read back by [int] as
    the same integer exactly when the integer is within the interpreter's
    limit on digits, that is, below [10 ^ 4300] in absolute value or, the
    same thing, written with at most 4300 digits; beyond the limit the
    text is refused with the value error.  Every integer [int] returns is
    within the limit, so the script never formats one that is not.  The
    text holds only digits after an optional minus sign, so it holds no
    comma, no space and no blank for the splitting to trip on. *)
Theorem decimal_text_reads_back :
  forall z zs,
    (within_limit z <-> PyInt.int (PyInt.str z) = Ok z) /\
    (~ within_limit z -> PyInt.int (PyInt.str z) = Raise ValueError) /\
    (within_limit z <->
     PyInt.digit_count (PyInt.str z) <= PyInt.max_str_digits) /\
    (Forall within_limit zs ->
     ResultMonad.list_map PyInt.int (map PyInt.str zs) = Ok zs) /\
    (forall s, PyInt.int s = Ok z -> within_limit z) /\
    all_chars is_digit_or_minus (PyInt.str z) = true /\
    lacks comma (PyInt.str z) = true /\
    lacks space (PyInt.str z) = true /\
    PyInt.str z <> EmptyString.
Proof.
  intros z zs. split; [split|].
  - apply int_str.
  - intros Hi. exact (proj1 (parsed_integers_print _ _ Hi)).
  - split; [apply int_str_beyond|]. split; [apply within_limit_digit_count|].
    split; [apply list_map_int_str|].
    split; [intros s Hs; exact (proj1 (parsed_integers_print _ _ Hs))|].
    split; [apply str_chars|]. split; [apply str_lacks_comma|].
    split; [apply str_lacks_space|].
    intros He. pose proof (literal_str z) as Hl. rewrite He in Hl.
    discriminate Hl.
Qed.

Lemma decimal_text_reads_back_witness :
  within_limit (-84) /\ PyInt.str (-84) = "-84" /\
  PyInt.int (PyInt.str (-84)) = Ok (-84).
Proof.
  assert (Hz : within_limit (-84))
    by (apply within_limit_digit_count; vm_compute; discriminate).
  split; [exact Hz|]. split; [reflexivity|].
  exact (proj1 (proj1 (decimal_text_reads_back (-84) [])) Hz).
Defined.

Lemma universal_newlines_no_cr s :
  lacks CR s = true -> TextFile.universal_newlines s = s.
Proof.
  unfold lacks. induction s as [|c s IH]; simpl; [reflexivity|].
  intros H. apply andb_prop in H as [Hc Hs]. apply negb_true_iff in Hc.
  now rewrite Hc, (IH Hs).
Qed.

Lemma universal_newlines_dos_text s :
  lacks CR s = true -> TextFile.universal_newlines (dos_text s) = s.
Proof.
  unfold lacks. induction s as [|c s IH]; simpl; [reflexivity|].
  intros H. apply andb_prop in H as [Hc Hs]. apply negb_true_iff in Hc.
  destruct (Ascii.eqb_spec c LF) as [->|Hlf].
  - cbn [TextFile.universal_newlines]. rewrite Ascii.eqb_refl.
    rewrite Ascii.eqb_refl. now rewrite (IH Hs).
  - cbn [TextFile.universal_newlines]. now rewrite Hc, (IH Hs).
Qed.

(** X8.  Line endings do not matter: a file written with ["\r\n"] at the
    end of each line gives the same outcome and the same output as the
    same file written with ["\n"]. *)
Theorem dos_file_same_run :
  forall content,
    lacks CR content = true ->
    file_lines (dos_text content) = file_lines content /\
    run (dos_text content) = run content.
Proof.
  intros content Hc.
  assert (Hl : file_lines (dos_text content) = file_lines content).
  { unfold file_lines.
    now rewrite (universal_newlines_dos_text _ Hc), (universal_newlines_no_cr _ Hc). }
  split; [exact Hl|]. now rewrite !run_scan, Hl.
Qed.

Lemma dos_file_same_run_witness :
  lacks CR greedy_then_mismatch = true /\
  dos_text greedy_then_mismatch =
    sample_header ++ crlf ++ greedy_line ++ crlf ++ lru_line ++ crlf /\
  run (dos_text greedy_then_mismatch) = run greedy_then_mismatch.
Proof.
  assert (Hc : lacks CR greedy_then_mismatch = true) by reflexivity.
  split; [exact Hc|]. split; [reflexivity|].
  exact (proj2 (dos_file_same_run _ Hc)).
Defined.

(** ** The lines of a file *)

Lemma append_nil_r s : s ++ EmptyString = s.
Proof. induction s as [|c s IH]; simpl; [reflexivity|now rewrite IH]. Qed.

Lemma append_assoc a b c : (a ++ b) ++ c = a ++ b ++ c.
Proof. induction a as [|x a IH]; simpl; [reflexivity|now rewrite IH]. Qed.

Lemma concat_empty_cons x xs :
  String.concat EmptyString (x :: xs) = x ++ String.concat EmptyString xs.
Proof. destruct xs; simpl; [now rewrite append_nil_r|reflexivity]. Qed.

Lemma lines_concat s : String.concat EmptyString (TextFile.lines s) = s.
Proof.
  induction s as [|c s IH]; [reflexivity|]. simpl.
  destruct (Ascii.eqb_spec c LF) as [->|Hc].
  - now rewrite concat_empty_cons, IH.
  - destruct (TextFile.lines s) as [|l ls] eqn:Hl.
    + apply lines_nil in Hl. now subst s.
    + rewrite concat_empty_cons in *. simpl. now rewrite IH.
Qed.

Lemma no_eol_app a b : no_eol (a ++ b) = no_eol a && no_eol b.
Proof.
  induction a as [|c a IH]; simpl; [reflexivity|].
  now rewrite IH, andb_assoc.
Qed.

Lemma no_eol_lacks s :
  no_eol s = true <-> lacks LF s = true /\ lacks CR s = true.
Proof.
  unfold lacks. induction s as [|c s IH]; simpl; [tauto|].
  rewrite !andb_true_iff, IH. tauto.
Qed.

Lemma lines_shape s : lacks CR s = true -> Forall line_shape (TextFile.lines s).
Proof.
  unfold lacks. induction s as [|c s IH]; simpl; [constructor|].
  intros H. apply andb_prop in H as [Hcr Hs]. specialize (IH Hs).
  destruct (Ascii.eqb c LF) eqn:Hlf.
  - constructor; [|exact IH]. apply Ascii.eqb_eq in Hlf. subst c.
    exists EmptyString. split; [reflexivity|now left].
  - assert (Hc : no_eol (String c EmptyString) = true)
      by (simpl; now rewrite Hlf, Hcr).
    destruct (TextFile.lines s) as [|l ls].
    + constructor; [|constructor]. exists (String c EmptyString).
      split; [exact Hc|]. right. split; [reflexivity|discriminate].
    + inversion IH as [|? ? (body & Hb & Hl) Hrest]; subst.
      constructor; [|exact Hrest]. exists (String c body). split.
      * simpl. simpl in Hc. rewrite andb_true_r in Hc. now rewrite Hc, Hb.
      * destruct Hl as [->|[-> _]]; [now left|right].
        split; [reflexivity|discriminate].
Qed.

Lemma universal_newlines_lacks_cr s :
  lacks CR (TextFile.universal_newlines s) = true.
Proof.
  assert (H : lacks CR (TextFile.universal_newlines s) = true /\
              forall c, lacks CR (TextFile.universal_newlines (String c s)) = true).
  { unfold lacks. induction s as [|a s [IH1 IH2]].
    - split; [reflexivity|]. intros c. simpl.
      destruct (Ascii.eqb c CR) eqn:Hc; simpl; [reflexivity|now rewrite Hc].
    - split; [apply IH2|]. intros c.
      cbn [TextFile.universal_newlines].
      destruct (Ascii.eqb c CR) eqn:Hc.
      + destruct (Ascii.eqb a LF) eqn:Ha.
        * cbn [all_chars]. now rewrite IH1.
        * cbn [all_chars]. change (Ascii.eqb LF CR) with false. cbn [negb andb].
          apply IH2.
      + cbn [all_chars]. rewrite Hc. cbn [negb andb]. apply IH2. }
  apply H.
Qed.

Lemma lines_inner_terminated s : forall i l,
  nth_error (TextFile.lines s) i = Some l ->
  (S i < length (TextFile.lines s))%nat ->
  exists body, l = body ++ nl.
Proof.
  induction s as [|c s IH]; intros i l; simpl; [destruct i; discriminate|].
  destruct (Ascii.eqb_spec c LF) as [->|Hc].
  - destruct i as [|i]; simpl.
    + intros [= <-] _. now exists EmptyString.
    + intros Hn Hlen. apply (IH i l Hn). lia.
  - destruct (TextFile.lines s) as [|l0 ls] eqn:Hl; simpl.
    + intros _ Hlen. lia.
    + destruct i as [|i]; simpl.
      * intros [= <-] Hlen.
        destruct (IH 0%nat l0 eq_refl) as [body ->]; [simpl; lia|].
        now exists (String c body).
      * intros Hn Hlen. apply (IH (S i) l); [exact Hn|simpl; lia].
Qed.

(** X9.  The lines the loop is handed cut the text of the file, with its
    line endings read as ["\n"], into pieces and lose nothing: joined
    again they give that text.  No line is empty, none holds a carriage
    return, and a line holds ["\n"] only as its last character; every line
    but the last ends with it, and the last does when the file does. *)
Theorem file_lines_partition :
  forall content,
    String.concat EmptyString (file_lines content) =
      TextFile.universal_newlines content /\
    Forall line_shape (file_lines content) /\
    (forall i l,
       nth_error (file_lines content) i = Some l ->
       (S i < length (file_lines content))%nat ->
       exists body, l = body ++ nl).
Proof.
  intros content. unfold file_lines. split; [apply lines_concat|]. split.
  - apply lines_shape, universal_newlines_lacks_cr.
  - apply lines_inner_terminated.
Qed.

Lemma file_lines_partition_witness :
  nth_error (file_lines (sample_header ++ crlf ++ greedy_line ++ cr ++ "bad")) 1 =
    Some (greedy_line ++ nl) /\
  (2 < length (file_lines (sample_header ++ crlf ++ greedy_line ++ cr ++ "bad")))%nat /\
  exists body, greedy_line ++ nl = body ++ nl.
Proof.
  assert (Hn : nth_error (file_lines (sample_header ++ crlf ++ greedy_line ++ cr ++ "bad")) 1
               = Some (greedy_line ++ nl)) by reflexivity.
  assert (Hl : (2 < length (file_lines (sample_header ++ crlf ++ greedy_line ++
                                       cr ++ "bad")))%nat) by (vm_compute; lia).
  split; [exact Hn|]. split; [exact Hl|].
  exact (proj2 (proj2 (file_lines_partition _)) _ _ Hn Hl).
Defined.

(** ** One line of output per record *)

Lemma split_head sep s piece piece' pieces :
  Str.split sep s = piece :: piece' :: pieces ->
  exists rest, s = piece ++ String sep rest.
Proof.
  revert piece. induction s as [|c s IH]; intros piece; simpl; [discriminate|].
  destruct (Ascii.eqb_spec c sep) as [->|Hc].
  - intros [= <- _]. now exists s.
  - destruct (Str.split sep s) as [|p ps] eqn:Hs; [discriminate|].
    intros [= <- Hps]. subst ps. destruct (IH p eq_refl) as [rest ->].
    now exists rest.
Qed.

Lemma append_prefix_of_snoc a b x d :
  a ++ b = x ++ String d EmptyString -> b <> EmptyString ->
  exists b', x = a ++ b'.
Proof.
  revert x. induction a as [|e a IH]; intros x; simpl.
  - intros _ _. now exists x.
  - destruct x as [|e' x]; simpl.
    + intros [= _ Hab] Hb. destruct a; simpl in Hab; [congruence|discriminate].
    + intros [= <- Hab] Hb. destruct (IH x Hab Hb) as [b' ->]. now exists b'.
Qed.

Lemma parse_line_policy line policy hits batchHits :
  parse_line line = Ok (policy, hits, batchHits) ->
  exists rest, line = policy ++ String comma rest.
Proof.
  intros Hp.
  assert (Hf : too_few_fields line = false).
  { destruct (too_few_fields line) eqn:Hf; [|reflexivity].
    rewrite (parse_line_few_fields line Hf) in Hp. discriminate. }
  rewrite (parse_line_enough_fields line Hf) in Hp.
  unfold too_few_fields, field_count in Hf. apply Nat.ltb_ge in Hf.
  destruct (Str.split comma line) as [|p [|q qs]] eqn:Hs; simpl in Hf; try lia.
  unfold ResultMonad.bind in Hp. cbn [hd] in Hp.
  destruct (PyInt.int _); [|discriminate].
  destruct (ResultMonad.list_map _ _); [|discriminate].
  injection Hp as <- _ _. exact (split_head _ _ _ _ _ Hs).
Qed.

Lemma line_shape_policy line policy rest :
  line_shape line -> line = policy ++ String comma rest -> no_eol policy = true.
Proof.
  intros (body & Hb & [Hl|[Hl _]]) Heq; subst line.
  - destruct (append_prefix_of_snoc policy (String comma rest) body LF
                (eq_sym Heq)) as [b' ->]; [discriminate|].
    rewrite no_eol_app in Hb. now apply andb_prop in Hb as [Hp _].
  - subst body. rewrite no_eol_app in Hb. now apply andb_prop in Hb as [Hp _].
Qed.

Lemma digit_or_minus_no_eol c :
  is_digit_or_minus c = true ->
  negb (Ascii.eqb c LF) && negb (Ascii.eqb c CR) = true.
Proof.
  destruct c as [[|] [|] [|] [|] [|] [|] [|] [|]];
    vm_compute; intros H; try discriminate H; reflexivity.
Qed.

Lemma no_eol_all_chars s :
  no_eol s = all_chars (fun c => negb (Ascii.eqb c LF) && negb (Ascii.eqb c CR)) s.
Proof. induction s as [|c s IH]; simpl; [reflexivity|now rewrite IH]. Qed.

Lemma str_no_eol z : no_eol (PyInt.str z) = true.
Proof.
  rewrite no_eol_all_chars.
  apply (all_chars_impl is_digit_or_minus); [|apply str_chars].
  apply digit_or_minus_no_eol.
Qed.

Lemma no_eol_join sep tokens :
  no_eol sep = true ->
  Forall (fun t => no_eol t = true) tokens ->
  no_eol (Str.join sep tokens) = true.
Proof.
  unfold Str.join. intros Hsep.
  induction tokens as [|x tokens IH]; intros Hall; [reflexivity|].
  inversion Hall as [|? ? Hx Hrest]; subst.
  destruct tokens as [|y tokens]; [exact Hx|].
  change (String.concat sep (x :: y :: tokens))
    with (x ++ sep ++ String.concat sep (y :: tokens)).
  now rewrite !no_eol_app, Hx, Hsep, (IH Hrest).
Qed.

Lemma no_eol_strs sep zs :
  no_eol sep = true -> no_eol (Str.join sep (map PyInt.str zs)) = true.
Proof.
  intros Hsep. apply no_eol_join; [exact Hsep|].
  apply Forall_map, Forall_forall. intros z _. apply str_no_eol.
Qed.

Lemma summary_no_eol policy hits batchHits :
  no_eol policy = true -> no_eol (summary policy hits batchHits) = true.
Proof.
  intros Hp. unfold summary, PyInt.repr_list.
  now rewrite !no_eol_app, Hp, str_no_eol, (no_eol_strs ", " batchHits eq_refl).
Qed.

(** X10.  Every text a run writes is one line: the summary of a record
    read from the file, free of line terminators, followed by a single
    ["\n"].  So the output has exactly one line per record printed, even
    though the policy is copied from the input as it stands. *)
Theorem output_one_line_per_record :
  forall content o,
    In o (snd (run content)) ->
    exists line policy hits batchHits,
      In line (file_lines content) /\
      parse_line line = Ok (policy, hits, batchHits) /\
      o = summary policy hits batchHits ++ nl /\
      no_eol (summary policy hits batchHits) = true.
Proof.
  intros content o. rewrite run_scan.
  destruct (file_lines content) as [|header data] eqn:Hf; [contradiction|].
  intros Hin.
  destruct (scan_out_valid data o Hin) as (line & p & h & b & Hl & Hp & _ & Ho).
  exists line, p, h, b. split; [now right|]. split; [exact Hp|]. split; [exact Ho|].
  apply summary_no_eol.
  destruct (parse_line_policy _ _ _ _ Hp) as [rest Hrest].
  apply (line_shape_policy line p rest); [|exact Hrest].
  assert (Hall : Forall line_shape (file_lines content))
    by (apply lines_shape, universal_newlines_lacks_cr).
  rewrite Hf in Hall. rewrite Forall_forall in Hall. apply Hall. now right.
Qed.

Lemma output_one_line_per_record_witness :
  In (greedy_summary ++ nl) (snd (run greedy_then_short)) /\
  exists line policy hits batchHits,
    In line (file_lines greedy_then_short) /\
    parse_line line = Ok (policy, hits, batchHits) /\
    greedy_summary ++ nl = summary policy hits batchHits ++ nl /\
    no_eol (summary policy hits batchHits) = true.
Proof.
  assert (Hin : In (greedy_summary ++ nl) (snd (run greedy_then_short)))
    by (left; reflexivity).
  split; [exact Hin|]. exact (output_one_line_per_record _ _ Hin).
Defined.

(** ** Writing a file and reading it back *)

Lemma record_line_body policy misses hits batchHits :
  record_line policy misses hits batchHits =
    unterminated_line policy misses hits batchHits ++ nl.
Proof.
  unfold record_line, unterminated_line, batch_field, Str.join.
  cbn [String.concat]. now rewrite !append_assoc.
Qed.

Lemma unterminated_line_no_eol policy misses hits batchHits :
  no_eol policy = true -> no_eol misses = true ->
  no_eol (unterminated_line policy misses hits batchHits) = true.
Proof.
  intros Hp Hm. pose proof (no_eol_strs " " batchHits eq_refl) as Hb.
  unfold unterminated_line, Str.join in *. cbn [String.concat].
  now rewrite !no_eol_app, Hp, Hm, str_no_eol, Hb.
Qed.

Lemma file_lines_terminated bodies :
  Forall (fun b => no_eol b = true) bodies ->
  file_lines (String.concat EmptyString (map (fun b => b ++ nl) bodies)) =
    map (fun b => b ++ nl) bodies.
Proof.
  induction bodies as [|b bodies IH]; intros Hall; [reflexivity|].
  inversion Hall as [|? ? Hb Hrest]; subst.
  cbn [map]. rewrite concat_empty_cons, append_assoc.
  rewrite (file_lines_header b nl _ Hb (or_introl eq_refl)).
  now rewrite (IH Hrest).
Qed.

Lemma entry_line_valid e :
  well_formed_entry e ->
  line_result (entry_line e) = Ok (summary (fst (fst (snd e))) (snd (fst (snd e)))
                                     (snd (snd e))).
Proof.
  destruct e as [misses [[policy hits] batchHits]]. simpl.
  intros (Hp & _ & Hm & _ & Hne & Hs & Hh & Hb).
  apply line_result_ok. exists policy, hits, batchHits.
  split; [now apply parse_record_line|]. now split.
Qed.

(** X11.  A results file written from records is read back in full: for a
    header free of line terminators and entries whose two text fields hold
    no comma and no line terminator, with at least one batch each, hits
    equal to the sum, and hits and batch hits within the interpreter's
    limit on digits, the run over the file made of the header line and one
    line per entry, integers in decimal, ends normally and prints the
    summary of every entry, in order. *)
Theorem written_file_read_back :
  forall header entries,
    no_eol header = true ->
    Forall well_formed_entry entries ->
    file_lines (written_file header entries) =
      (header ++ nl) :: map entry_line entries /\
    run (written_file header entries) = (Ok tt, map entry_summary entries).
Proof.
  intros header entries Hh Hall.
  assert (Hlines : file_lines (written_file header entries) =
                   (header ++ nl) :: map entry_line entries).
  { unfold written_file.
    rewrite (file_lines_header header nl _ Hh (or_introl eq_refl)). f_equal.
    assert (Hmap : map entry_line entries =
                   map (fun b => b ++ nl)
                     (map (fun e : entry =>
                             let '(misses, (policy, hits, batchHits)) := e in
                             unterminated_line policy misses hits batchHits)
                          entries)).
    { rewrite map_map. apply map_ext. intros [misses [[policy hits] batchHits]].
      apply record_line_body. }
    rewrite Hmap. apply file_lines_terminated.
    apply Forall_map. revert Hall. apply Forall_impl.
    intros [misses [[policy hits] batchHits]] (_ & Hp & _ & Hm & _).
    now apply unterminated_line_no_eol. }
  split; [exact Hlines|].
  rewrite (run_header _ _ _ Hlines).
  rewrite (scan_all_valid (map entry_line entries)).
  - f_equal. rewrite map_map. apply map_ext_in. intros e He.
    rewrite Forall_forall in Hall. unfold printed.
    rewrite (entry_line_valid e (Hall e He)).
    now destruct e as [misses [[policy hits] batchHits]].
  - intros l Hl. apply in_map_iff in Hl as (e & <- & He).
    rewrite Forall_forall in Hall. apply valid_line_iff.
    eexists. exact (entry_line_valid e (Hall e He)).
Qed.

Lemma written_file_read_back_witness :
  no_eol sample_header = true /\
  Forall well_formed_entry
    [("42", ("greedy", 99, [3; 5; 7; 84])); ("0", ("lru", -6, [-2; -2; -2]))] /\
  written_file sample_header
    [("42", ("greedy", 99, [3; 5; 7; 84])); ("0", ("lru", -6, [-2; -2; -2]))] =
    sample_header ++ nl ++ greedy_line ++ nl ++ negative_line ++ nl /\
  run (written_file sample_header
         [("42", ("greedy", 99, [3; 5; 7; 84])); ("0", ("lru", -6, [-2; -2; -2]))]) =
    (Ok tt, [greedy_summary ++ nl; negative_summary ++ nl]).
Proof.
  assert (Hh : no_eol sample_header = true) by reflexivity.
  assert (Hall : Forall well_formed_entry
                   [("42", ("greedy", 99, [3; 5; 7; 84]));
                    ("0", ("lru", -6, [-2; -2; -2]))]).
  { assert (Hlim : forall z, PyInt.digit_count (PyInt.str z) <= PyInt.max_str_digits ->
                       within_limit z)
      by (intros z; apply within_limit_digit_count).
    constructor; [|constructor; [|constructor]];
      (split; [reflexivity|]; split; [reflexivity|]; split; [reflexivity|];
       split; [reflexivity|]; split; [discriminate|]; split; [reflexivity|];
       split; [apply Hlim; vm_compute; discriminate|];
       repeat constructor; apply Hlim; vm_compute; discriminate). }
  split; [exact Hh|]. split; [exact Hall|]. split; [reflexivity|].
  exact (proj2 (written_file_read_back _ _ Hh Hall)).
Defined.

(** ** A last line without its line terminator *)

Lemma chop_snoc s c : chop (s ++ String c EmptyString) = s.
Proof.
  unfold chop, strip_ends. cbn [skipn].
  rewrite list_ascii_of_string_app, rev_app_distr. simpl.
  rewrite rev_involutive. apply string_of_list_ascii_of_string.
Qed.

Lemma string_snoc s :
  s <> EmptyString -> exists s' c, s = s' ++ String c EmptyString.
Proof.
  induction s as [|a s IH]; [congruence|]. intros _.
  destruct s as [|b s].
  - now exists EmptyString, a.
  - destruct IH as (s' & c & Hs); [discriminate|].
    exists (String a s'), c. simpl. now rewrite <- Hs.
Qed.

Lemma slice_unterminated x : Str.slice ("[" ++ x ++ "]") 1 (-2) = chop x.
Proof.
  rewrite slice_1_m2. unfold chop, strip_ends.
  change ("[" ++ x ++ "]") with (String "[" (x ++ "]")).
  cbn [list_ascii_of_string skipn].
  rewrite list_ascii_of_string_app, rev_app_distr. reflexivity.
Qed.

Lemma join_snoc sep ts t c :
  Str.join sep (ts ++ [t ++ String c EmptyString]) =
  Str.join sep (ts ++ [t]) ++ String c EmptyString.
Proof.
  unfold Str.join. induction ts as [|x ts IH]; [reflexivity|].
  destruct ts as [|y ts].
  - simpl. now rewrite !append_assoc.
  - change (String.concat sep ((x :: y :: ts) ++ [t ++ String c EmptyString]))
      with (x ++ sep ++ String.concat sep ((y :: ts) ++ [t ++ String c EmptyString])).
    change (String.concat sep ((x :: y :: ts) ++ [t]))
      with (x ++ sep ++ String.concat sep ((y :: ts) ++ [t])).
    now rewrite IH, !append_assoc.
Qed.

Lemma list_map_snoc {A B : Type} (f : A -> result B) xs x :
  ResultMonad.list_map f (xs ++ [x]) =
    (ys <- ResultMonad.list_map f xs ;; y <- f x ;; Ok (ys ++ [y])%list)%result.
Proof.
  induction xs as [|a xs IH]; simpl.
  - unfold ResultMonad.bind. now destruct (f x).
  - unfold ResultMonad.bind in *. destruct (f a) as [b|e]; [|reflexivity].
    rewrite IH. destruct (ResultMonad.list_map f xs) as [ys|e]; [|reflexivity].
    now destruct (f x).
Qed.

Lemma sum_snoc zs z : Seq.sum (zs ++ [z]) = Seq.sum zs + z.
Proof. unfold Seq.sum. now rewrite fold_left_app. Qed.

Lemma digit_of_is_digit c :
  is_digit c = true -> exists d, PyInt.digit_of c = Some d /\ 0 <= d <= 9.
Proof.
  unfold is_digit. destruct (PyInt.digit_of c) as [d|] eqn:Hd; [|discriminate].
  intros _. exists d. split; [reflexivity|exact (digit_of_range c d Hd)].
Qed.

Lemma digits_all_digits s :
  all_chars is_digit s = true ->
  forall acc, 0 <= acc -> exists m, PyInt.digits acc true s = Some m /\ 0 <= m.
Proof.
  induction s as [|c s IH]; cbn [PyInt.digits all_chars]; intros Hs acc Hacc;
    [now exists acc|].
  apply andb_prop in Hs as [Hc Hs].
  destruct (digit_not_special c Hc) as (_ & _ & _ & Hu & _).
  destruct (digit_of_is_digit c Hc) as (d & Hd & Hr).
  rewrite Hu, Hd. apply (IH Hs). lia.
Qed.

Lemma digits_snoc s c d :
  all_chars is_digit s = true ->
  is_digit c = true ->
  PyInt.digit_of c = Some d ->
  forall acc,
    PyInt.digits acc true (s ++ String c EmptyString) =
    option_map (fun m => 10 * m + d) (PyInt.digits acc true s).
Proof.
  intros Hs Hc Hd.
  destruct (digit_not_special c Hc) as (_ & _ & _ & Hu & _).
  induction s as [|a s IH]; intros acc;
    cbn [append PyInt.digits].
  - now rewrite Hu, Hd.
  - cbn [all_chars] in Hs. apply andb_prop in Hs as [Ha Hs].
    destruct (digit_not_special a Ha) as (_ & _ & _ & Hua & _).
    destruct (digit_of_is_digit a Ha) as (da & Hda & _).
    rewrite Hua, Hda. apply (IH Hs).
Qed.

Lemma str_nonempty z : PyInt.str z <> EmptyString.
Proof.
  intros He. pose proof (literal_str z) as Hl. rewrite He in Hl. discriminate Hl.
Qed.

(** The text of a positive integer, cut into its last digit and the rest. *)
Lemma str_pos_split p :
  exists t c d m,
    PyInt.str (Z.pos p) = t ++ String c EmptyString /\
    all_chars is_digit t = true /\
    PyInt.digits 0 true t = Some m /\ 0 <= m /\
    0 <= d <= 9 /\ Z.pos p = 10 * m + d.
Proof.
  destruct (string_snoc _ (str_nonempty (Z.pos p))) as (t & c & Hs).
  pose proof (str_pos_all_digits p) as Hd. rewrite Hs, all_chars_app in Hd.
  apply andb_prop in Hd as [Ht Hc]. simpl in Hc. rewrite andb_true_r in Hc.
  destruct (digit_of_is_digit c Hc) as (d & Hdc & Hr).
  destruct (digits_all_digits t Ht 0 (Z.le_refl 0)) as (m & Hm & Hm0).
  exists t, c, d, m. repeat split; try assumption; try lia.
  pose proof (literal_str (Z.pos p)) as Hl.
  rewrite literal_digits in Hl; [|apply str_nonempty|apply str_pos_all_digits].
  rewrite Hs, (digits_snoc t c d Ht Hc Hdc), Hm in Hl. simpl in Hl.
  now injection Hl.
Qed.

Lemma quot_10 m d : 0 <= m -> 0 <= d <= 9 -> Z.quot (10 * m + d) 10 = m.
Proof.
  intros Hm Hd. rewrite Z.quot_div_nonneg by lia.
  symmetry. apply (Z.div_unique (10 * m + d) 10 m d); lia.
Qed.

Lemma chop_str_small v :
  Z.abs v < 10 -> PyInt.int (chop (PyInt.str v)) = Raise ValueError.
Proof.
  intros Hv.
  assert (H : v = -9 \/ v = -8 \/ v = -7 \/ v = -6 \/ v = -5 \/ v = -4 \/
              v = -3 \/ v = -2 \/ v = -1 \/ v = 0 \/ v = 1 \/ v = 2 \/ v = 3 \/
              v = 4 \/ v = 5 \/ v = 6 \/ v = 7 \/ v = 8 \/ v = 9) by lia.
  repeat (destruct H as [->|H]; [reflexivity|]). now subst v.
Qed.

(** The literal left of the text of [v] once its last digit is cut. *)
Lemma literal_chop_str v :
  10 <= Z.abs v -> PyInt.literal (chop (PyInt.str v)) = Some (Z.quot v 10).
Proof.
  intros Hv. destruct v as [|p|p]; [simpl in Hv; lia|..];
    destruct (str_pos_split p) as (t & c & d & m & Hs & Ht & Hm & Hm0 & Hd & Hp);
    assert (Hne : t <> EmptyString)
      by (intros ->; simpl in Hm; injection Hm as <-; simpl in Hv; lia).
  - rewrite Hs, chop_snoc, (literal_digits t Hne Ht), Hm, Hp.
    now rewrite (quot_10 m d Hm0 Hd).
  - rewrite str_neg, Hs.
    change (String "-" (t ++ String c EmptyString))
      with (String "-" t ++ String c EmptyString).
    rewrite chop_snoc. cbn [PyInt.literal].
    change (Ascii.eqb "-" "-") with true. cbv iota.
    rewrite (digits_first t 0 Hne Ht), Hm. cbn [option_map].
    change (Z.neg p) with (- Z.pos p). rewrite Z.quot_opp_l by lia.
    now rewrite Hp, (quot_10 m d Hm0 Hd).
Qed.

Lemma chop_all_chars p s : all_chars p s = true -> all_chars p (chop s) = true.
Proof.
  destruct s as [|a s0] eqn:Hs; [reflexivity|]. rewrite <- Hs.
  destruct (string_snoc s) as (t & c & Ht); [subst s; discriminate|].
  rewrite Ht, chop_snoc, all_chars_app.
  intros H. now apply andb_prop in H as [H _].
Qed.

Lemma chop_lacks ch s : lacks ch s = true -> lacks ch (chop s) = true.
Proof. apply chop_all_chars. Qed.

Lemma chop_digit_count s : PyInt.digit_count (chop s) <= PyInt.digit_count s.
Proof.
  destruct s as [|a s0] eqn:Hs; [vm_compute; discriminate|]. rewrite <- Hs.
  destruct (string_snoc s) as (t & c & Ht); [subst s; discriminate|].
  rewrite Ht, chop_snoc, digit_count_app.
  pose proof (digit_count_nonneg (String c EmptyString)). lia.
Qed.

Lemma int_chop_str v :
  10 <= Z.abs v ->
  PyInt.int (chop (PyInt.str v)) =
    if PyInt.digit_count (chop (PyInt.str v)) <=? PyInt.max_str_digits
    then Ok (Z.quot v 10) else Raise ValueError.
Proof.
  intros Hv.
  rewrite (int_no_space _ (chop_all_chars _ _ (str_no_space v))).
  now rewrite (literal_chop_str v Hv).
Qed.

Lemma chop_str_large v :
  10 <= Z.abs v -> within_limit v ->
  PyInt.int (chop (PyInt.str v)) = Ok (Z.quot v 10).
Proof.
  intros Hv Hlim. rewrite (int_chop_str v Hv).
  apply within_limit_digit_count in Hlim.
  pose proof (chop_digit_count (PyInt.str v)) as Hc.
  now rewrite (proj2 (Z.leb_le _ _) (Z.le_trans _ _ _ Hc Hlim)).
Qed.

Lemma chop_str_large_cases v :
  10 <= Z.abs v ->
  PyInt.int (chop (PyInt.str v)) = Ok (Z.quot v 10) \/
  PyInt.int (chop (PyInt.str v)) = Raise ValueError.
Proof. intros Hv. rewrite (int_chop_str v Hv). destruct (_ <=? _); auto. Qed.

Lemma quot_10_changes v : 10 <= Z.abs v -> Z.quot v 10 <> v.
Proof.
  intros Hv Heq. pose proof (Z.quot_rem' v 10) as Hq.
  pose proof (Z.rem_bound_abs v 10 ltac:(lia)) as Hr.
  rewrite Heq in Hq. lia.
Qed.

Lemma unterminated_line_parse policy misses hits front v :
  lacks comma policy = true -> lacks comma misses = true ->
  parse_line (unterminated_line policy misses hits (front ++ [v])) =
    (h <- PyInt.int (PyInt.str hits) ;;
     ys <- ResultMonad.list_map PyInt.int (map PyInt.str front) ;;
     y <- PyInt.int (chop (PyInt.str v)) ;;
     Ok (policy, h, ys ++ [y])%list)%result.
Proof.
  intros Hp Hm.
  set (x := Str.join " " (map PyInt.str (front ++ [v]))).
  set (tokens := (map PyInt.str front ++ [chop (PyInt.str v)])%list).
  assert (Hx : chop x = Str.join " " tokens).
  { unfold x, tokens. rewrite map_app. cbn [map].
    destruct (string_snoc _ (str_nonempty v)) as (t & c & Ht).
    rewrite Ht, join_snoc, !chop_snoc. reflexivity. }
  assert (Hcomma : lacks comma ("[" ++ x ++ "]") = true).
  { unfold lacks. rewrite !all_chars_app. fold (lacks comma x).
    unfold x. rewrite (lacks_join comma " " _ eq_refl); [reflexivity|].
    apply Forall_map, Forall_forall. intros z _. apply str_lacks_comma. }
  assert (Hspace : Forall (fun t => lacks space t = true) tokens).
  { unfold tokens. apply Forall_app. split.
    - apply Forall_map, Forall_forall. intros z _. apply str_lacks_space.
    - constructor; [|constructor]. apply chop_lacks, str_lacks_space. }
  assert (Hne : tokens <> [])
    by (unfold tokens; destruct (map PyInt.str front); discriminate).
  assert (Htok : ResultMonad.list_map PyInt.int
                   (Str.split space (Str.slice ("[" ++ x ++ "]") 1 (-2))) =
                 (ys <- ResultMonad.list_map PyInt.int (map PyInt.str front) ;;
                  y <- PyInt.int (chop (PyInt.str v)) ;;
                  Ok (ys ++ [y])%list)%result).
  { rewrite slice_unterminated, Hx.
    change (Str.join " " tokens) with (Str.join (String space EmptyString) tokens).
    rewrite (split_join space tokens Hne Hspace). unfold tokens.
    apply list_map_snoc. }
  unfold parse_line, unterminated_line. fold x.
  change (Str.join "," [policy; misses; PyInt.str hits; "[" ++ x ++ "]"])
    with (Str.join (String comma EmptyString)
            [policy; misses; PyInt.str hits; "[" ++ x ++ "]"]).
  rewrite (split_join comma [policy; misses; PyInt.str hits; "[" ++ x ++ "]"]).
  - unfold policy_of, hits_of, batchHits_of.
    rewrite (getitem_nat _ 0), (getitem_nat _ 2), (getitem_last _ EmptyString).
    cbn [nth_error ResultMonad.bind List.last]. rewrite Htok.
    unfold ResultMonad.bind.
    destruct (PyInt.int (PyInt.str hits)); [|reflexivity].
    destruct (ResultMonad.list_map PyInt.int (map PyInt.str front)); [|reflexivity].
    now destruct (PyInt.int (chop (PyInt.str v))).
  - discriminate.
  - repeat constructor; auto using str_lacks_comma.
Qed.

(** Reading the unterminated line of a record either raises the value
    error or yields the record with its last batch hit cut. *)
Lemma unterminated_line_outcome policy misses hits front v :
  lacks comma policy = true -> lacks comma misses = true ->
  parse_line (unterminated_line policy misses hits (front ++ [v])) =
    Raise ValueError \/
  (10 <= Z.abs v /\
   parse_line (unterminated_line policy misses hits (front ++ [v])) =
     Ok (policy, hits, front ++ [Z.quot v 10])%list).
Proof.
  intros Hp Hm. rewrite (unterminated_line_parse policy misses hits front v Hp Hm).
  unfold ResultMonad.bind.
  destruct (int_str_cases hits) as [-> | ->]; [|now left].
  destruct (list_map_int_str_cases front) as [-> | ->]; [|now left].
  destruct (Z.lt_ge_cases (Z.abs v) 10) as [Hv|Hv].
  - left. now rewrite (chop_str_small v Hv).
  - destruct (chop_str_large_cases v Hv) as [-> | ->]; [now right|now left].
Qed.

(** X12.  A line that ends the file without a line terminator loses one
    more character than its closing bracket: the last batch hit is read
    without its last digit.  For the line of a record in decimal this
    means a value error when the last batch hit has a single digit, and
    otherwise, when the integers of the line are within the interpreter's
    limit on digits, the last batch hit divided by ten, rounded toward
    zero.  A record that would pass with its terminator therefore never
    does without it: the line raises the value error or the assertion
    error, and nothing is printed for it. *)
Theorem unterminated_line_cut :
  forall policy misses hits front v,
    lacks comma policy = true -> lacks comma misses = true ->
    (Z.abs v < 10 ->
     parse_line (unterminated_line policy misses hits (front ++ [v])) =
       Raise ValueError) /\
    (10 <= Z.abs v ->
     within_limit hits -> Forall within_limit front -> within_limit v ->
     parse_line (unterminated_line policy misses hits (front ++ [v])) =
       Ok (policy, hits, front ++ [Z.quot v 10])%list) /\
    (hits = Seq.sum (front ++ [v]) ->
     exists e,
       (e = ValueError \/ e = AssertionError) /\
       forall w,
         loop_body (unterminated_line policy misses hits (front ++ [v])) w =
           (Raise e, w)).
Proof.
  intros policy misses hits front v Hp Hm.
  pose proof (unterminated_line_outcome policy misses hits front v Hp Hm) as Hout.
  split; [|split].
  - intros Hv. destruct Hout as [Hr|[Hge _]]; [exact Hr|lia].
  - intros Hv Hh Hf Hlim.
    rewrite (unterminated_line_parse policy misses hits front v Hp Hm).
    now rewrite (int_str hits Hh), (list_map_int_str front Hf),
      (chop_str_large v Hv Hlim).
  - intros Hs. destruct Hout as [Hr|[Hv Hok]].
    + exists ValueError. split; [now left|]. intros w.
      rewrite loop_body_line_result.
      now rewrite (line_result_parse_error _ _ Hr).
    + exists AssertionError. split; [now right|]. intros w.
      apply (loop_body_parsed _ _ _ _ w Hok).
      rewrite Hs, !sum_snoc. pose proof (quot_10_changes v Hv). lia.
Qed.

Lemma unterminated_line_cut_witness :
  lacks comma "greedy" = true /\ lacks comma "42" = true /\
  unterminated_line "greedy" "42" 99 ([3; 5; 7] ++ [84]) = greedy_line /\
  10 <= Z.abs 84 /\
  within_limit 99 /\ Forall within_limit [3; 5; 7] /\ within_limit 84 /\
  parse_line greedy_line = Ok ("greedy", 99, [3; 5; 7; 8]).
Proof.
  assert (Hlim : forall z, PyInt.digit_count (PyInt.str z) <= PyInt.max_str_digits ->
                     within_limit z)
    by (intros z; apply within_limit_digit_count).
  assert (Hp : lacks comma "greedy" = true) by reflexivity.
  assert (Hm : lacks comma "42" = true) by reflexivity.
  assert (Hv : 10 <= Z.abs 84) by (vm_compute; discriminate).
  assert (Hh : within_limit 99) by (apply Hlim; vm_compute; discriminate).
  assert (Hf : Forall within_limit [3; 5; 7])
    by (repeat constructor; apply Hlim; vm_compute; discriminate).
  assert (Hl : within_limit 84) by (apply Hlim; vm_compute; discriminate).
  split; [exact Hp|]. split; [exact Hm|]. split; [reflexivity|]. split; [exact Hv|].
  split; [exact Hh|]. split; [exact Hf|]. split; [exact Hl|].
  exact (proj1 (proj2 (unterminated_line_cut "greedy" "42" 99 [3; 5; 7] 84 Hp Hm))
           Hv Hh Hf Hl).
Defined.

(** ** Blank tokens in the batch field *)

Lemma split_app sep a b :
  Str.split sep (a ++ String sep b) = (Str.split sep a ++ Str.split sep b)%list.
Proof.
  induction a as [|c a IH]; simpl.
  - now rewrite Ascii.eqb_refl.
  - destruct (Ascii.eqb c sep); [now rewrite IH|]. rewrite IH.
    destruct (Str.split sep a) as [|p ps] eqn:Hs;
      [now destruct (split_nonempty sep a)|reflexivity].
Qed.

Lemma join_split sep s :
  Str.join (String sep EmptyString) (Str.split sep s) = s.
Proof.
  unfold Str.join. induction s as [|c s IH]; [reflexivity|]. simpl.
  destruct (Ascii.eqb_spec c sep) as [->|Hc].
  - destruct (Str.split sep s) as [|p ps] eqn:Hs;
      [now destruct (split_nonempty sep s)|].
    change (String.concat (String sep EmptyString) (EmptyString :: p :: ps))
      with (String sep (String.concat (String sep EmptyString) (p :: ps))).
    now rewrite IH.
  - destruct (Str.split sep s) as [|p ps] eqn:Hs;
      [now destruct (split_nonempty sep s)|].
    destruct ps as [|q qs]; simpl in *; now rewrite IH.
Qed.

Lemma list_map_int_blank tokens :
  In EmptyString tokens ->
  ResultMonad.list_map PyInt.int tokens = Raise ValueError.
Proof.
  intros Hin.
  destruct (ResultMonad.list_map PyInt.int tokens) as [zs|e] eqn:Hm.
  - assert (Hall : forallb is_int tokens = true)
      by (apply list_map_int_forallb; now exists zs).
    rewrite forallb_forall in Hall. specialize (Hall _ Hin). discriminate Hall.
  - now rewrite (list_map_int_raise _ _ Hm).
Qed.

(** X13.  The batch field must be separated by single spaces with no
    padding.  Splitting on a space loses nothing (joining the tokens with
    spaces gives the sliced field back), so a doubled space, a space just
    inside the opening bracket or a space just before the closing one each
    leave an empty token; and a line with at least three fields and an
    empty token among its batch tokens raises the value error. *)
Theorem blank_token_value_error :
  (forall s, Str.join " " (Str.split space s) = s) /\
  (forall a b, In EmptyString (Str.split space (a ++ "  " ++ b))) /\
  (forall b, In EmptyString (Str.split space (" " ++ b))) /\
  (forall a, In EmptyString (Str.split space (a ++ " "))) /\
  (forall line,
     too_few_fields line = false ->
     In EmptyString (batch_tokens line) ->
     forall w, loop_body line w = (Raise ValueError, w)).
Proof.
  split; [exact (join_split space)|]. split; [|split; [|split]].
  - intros a b. change (a ++ "  " ++ b) with (a ++ String space (String space b)).
    rewrite split_app. apply in_or_app. right.
    change (Str.split space (String space b))
      with (EmptyString :: Str.split space b). now left.
  - intros b. change (Str.split space (" " ++ b))
      with (EmptyString :: Str.split space b). now left.
  - intros a. change (a ++ " ") with (a ++ String space EmptyString).
    rewrite split_app. apply in_or_app. right. now left.
  - intros line Hf Hin w. rewrite loop_body_line_result.
    assert (Hp : parse_line line = Raise ValueError).
    { rewrite (parse_line_enough_fields line Hf), (list_map_int_blank _ Hin).
      unfold ResultMonad.bind.
      destruct (PyInt.int _) as [h|e] eqn:Hh; [reflexivity|].
      now rewrite (int_raise _ _ Hh). }
    now rewrite (line_result_parse_error _ _ Hp).
Qed.

Lemma blank_token_value_error_witness :
  too_few_fields ("lru,0,5,[2  3]" ++ nl) = false /\
  batch_tokens ("lru,0,5,[2  3]" ++ nl) = ["2"; ""; "3"] /\
  loop_body ("lru,0,5,[2  3]" ++ nl) (world_of Missing) =
    (Raise ValueError, world_of Missing).
Proof.
  assert (Hf : too_few_fields ("lru,0,5,[2  3]" ++ nl) = false) by reflexivity.
  assert (Hin : In EmptyString (batch_tokens ("lru,0,5,[2  3]" ++ nl)))
    by (right; left; reflexivity).
  split; [exact Hf|]. split; [reflexivity|].
  exact (proj2 (proj2 (proj2 (proj2 blank_token_value_error))) _ Hf Hin _).
Defined.
